(** * Font-Rendering-Tool: the typography metrics and the style projection

    A shallow embedding of the pure computations of [src/script.js]
    (class [FontRenderingEngine]): the OpenType feature string, the live
    style written to the preview element, the exported CSS text, the text
    metrics and the layout score.

    JavaScript values are modelled as the language defines them:
    - a string is a sequence of UTF-16 code units ([jsstring], a list of
      integers below 65536); string literals of the source are written
      [lit "..."];
    - a Number is an IEEE 754 binary64 value ([number], the Standard
      Library's [spec_float] at precision 53), with the rounding of every
      operation;
    - an object used as a table is a finite map with the prototype chain
      behind it; a [Set] is the list of its elements in insertion order. *)

From Stdlib Require Import ZArith List Bool String Ascii Lia.
From Stdlib Require Import Floats.SpecFloat.
From stdpp Require Import gmap strings.
Import ListNotations.
Open Scope Z_scope.

(** ** Strings *)

Module JSString.

Definition jsstring : Type := list Z.

(** A source literal: one code unit per (ASCII) character. *)
Definition lit (s : string) : jsstring :=
  map (fun a => Z.of_N (N_of_ascii a)) (list_ascii_of_string s).

(** [String.prototype.length]: the number of code units. *)
Definition jslength (s : jsstring) : Z := Z.of_nat (length s).

(** ECMAScript WhiteSpace and LineTerminator code points: what
    [String.prototype.trim] strips and what the regular expression class
    [\s] matches.  All of them are single code units. *)
Definition isWhiteSpace (c : Z) : bool :=
  (c =? 9) || (c =? 10) || (c =? 11) || (c =? 12) || (c =? 13) || (c =? 32)
  || (c =? 160) || (c =? 5760) || ((8192 <=? c) && (c <=? 8202))
  || (c =? 8232) || (c =? 8233) || (c =? 8239) || (c =? 8287)
  || (c =? 12288) || (c =? 65279).

Fixpoint trimStart (s : jsstring) : jsstring :=
  match s with
  | c :: r => if isWhiteSpace c then trimStart r else s
  | [] => []
  end.

Definition trimEnd (s : jsstring) : jsstring := rev (trimStart (rev s)).

(** [String.prototype.trim]. *)
Definition trim (s : jsstring) : jsstring := trimEnd (trimStart s).

(** [s.split(/\s+/)]: the pieces between maximal runs of white space.
    [cur] is the piece being read (reversed); [sep] tells that the last
    code unit read belonged to a separator.  A separator at either end of
    the string leaves an empty piece there, as in JavaScript. *)
Fixpoint splitWS_go (sep : bool) (cur : jsstring) (s : jsstring)
  : list jsstring :=
  match s with
  | [] => [rev cur]
  | c :: r =>
      if isWhiteSpace c
      then (if sep then splitWS_go true cur r
            else rev cur :: splitWS_go true [] r)
      else splitWS_go false (c :: cur) r
  end.

Definition splitWS (s : jsstring) : list jsstring := splitWS_go false [] s.

(** [s.split(sep)] for a one-unit separator ([text.split('\n')]). *)
Fixpoint splitChar_go (sep : Z) (cur : jsstring) (s : jsstring)
  : list jsstring :=
  match s with
  | [] => [rev cur]
  | c :: r =>
      if c =? sep then rev cur :: splitChar_go sep [] r
      else splitChar_go sep (c :: cur) r
  end.

Definition splitChar (sep : Z) (s : jsstring) : list jsstring :=
  splitChar_go sep [] s.

(** [s.startsWith(p)] at position 0, and [s.includes(p)]. *)
Fixpoint startsWith (p s : jsstring) : bool :=
  match p, s with
  | [], _ => true
  | _ :: _, [] => false
  | a :: p', b :: s' => (a =? b) && startsWith p' s'
  end.

Fixpoint includes (s p : jsstring) : bool :=
  startsWith p s ||
  match s with
  | [] => false
  | _ :: r => includes r p
  end.

(** [Array.prototype.join] on an array of strings. *)
Fixpoint join (sep : jsstring) (l : list jsstring) : jsstring :=
  match l with
  | [] => []
  | [x] => x
  | x :: r => x ++ sep ++ join sep r
  end.

(** *** Code points

    A Unicode scalar value is a code point outside the surrogate range;
    its UTF-16 form is one unit in the Basic Multilingual Plane and a
    surrogate pair above it. *)
Definition isScalar (cp : Z) : Prop :=
  (0 <= cp < 55296) \/ (57344 <= cp <= 1114111).

Definition isHighSurrogate (c : Z) : bool := (55296 <=? c) && (c <=? 56319).
Definition isLowSurrogate (c : Z) : bool := (56320 <=? c) && (c <=? 57343).

Definition encodeCodePoint (cp : Z) : jsstring :=
  if cp <? 65536 then [cp]
  else [55296 + (cp - 65536) / 1024; 56320 + (cp - 65536) mod 1024].

Definition fromCodePoints (cps : list Z) : jsstring :=
  flat_map encodeCodePoint cps.

(** The string iterator ([[...s]], [Array.from(s)]): a high surrogate
    followed by a low one is one code point, any other unit stands alone. *)
Fixpoint codePoints (s : jsstring) : list Z :=
  match s with
  | [] => []
  | c :: r =>
      match r with
      | d :: r' =>
          if isHighSurrogate c && isLowSurrogate d
          then (65536 + (c - 55296) * 1024 + (d - 56320)) :: codePoints r'
          else c :: codePoints r
      | [] => [c]
      end
  end.

End JSString.
Export JSString.

(** ** Numbers *)

Module JSNumber.

(** A Number is a binary64 value; the arithmetic is the Standard
    Library's specification of IEEE 754 at precision 53. *)
Definition number : Type := spec_float.

Definition NaN : number := S754_nan.
Definition mul : number -> number -> number := SFmul 53 1024.
Definition div : number -> number -> number := SFdiv 53 1024.
Definition ltb : number -> number -> bool := SFltb.
Definition leb : number -> number -> bool := SFleb.

(** The binary64 value nearest to the rational [p / q] ([0 <= p],
    [0 < q]) with sign [s], ties to even. *)
Definition roundQ (s : bool) (p q : Z) : number :=
  if p =? 0 then S754_zero s
  else
    let '(mz, ez, lz) := SFdiv_core_binary 53 1024 p 0 q 0 in
    binary_round_aux 53 1024 s mz ez lz.

(** The binary64 form of a positive integer of at most 53 bits: exact. *)
Definition ofSmallPos (s : bool) (k : positive) : number :=
  let d := Zpos (digits2_pos k) in
  S754_finite s (Z.to_pos (Z.shiftl (Zpos k) (53 - d))) (d - 53).

(** The Number of an integer (a length, a pixel count, an integer
    literal or numeral): an integer of at most 53 bits is a Number as it
    stands, a longer one is rounded.  [ofMagnitude] takes the sign apart
    from the magnitude, which tells [-0] from [+0]. *)
Definition ofPos (s : bool) (p : positive) : number :=
  if Zpos (digits2_pos p) <=? 53 then ofSmallPos s p else roundQ s (Zpos p) 1.

Definition ofMagnitude (s : bool) (n : Z) : number :=
  match n with
  | Zpos p => ofPos s p
  | _ => S754_zero s
  end.

Definition ofZ (z : Z) : number :=
  match z with
  | Z0 => S754_zero false
  | Zpos p => ofPos false p
  | Zneg p => ofPos true p
  end.

(** The Number of the decimal [m * 10^k], [0 <= m]: how a numeric
    literal and a numeric string are read. *)
Definition ofDecimal (s : bool) (m k : Z) : number :=
  if 0 <=? k then ofMagnitude s (m * 10 ^ k) else roundQ s m (10 ^ (- k)).

(** [Math.floor].  A finite value with a non-negative exponent is an
    integer already; otherwise the integer part has fewer than 53 bits. *)
Definition floor (x : number) : number :=
  match x with
  | S754_finite s m e =>
      if 0 <=? e then x
      else
        let d := 2 ^ (- e) in
        let k := Zpos m / d in
        let k' := if s && negb (Zpos m mod d =? 0) then k + 1 else k in
        match k' with
        | Zpos p => ofSmallPos s p
        | _ => S754_zero s
        end
  | _ => x
  end.

(** [Math.ceil(x)] is [-Math.floor(-x)]. *)
Definition ceil (x : number) : number := SFopp (floor (SFopp x)).

(** [Math.max] of two values: NaN when either is NaN, and [+0] counts as
    larger than [-0]. *)
Definition Math_max (a b : number) : number :=
  match SFcompare a b with
  | None => NaN
  | Some Lt => b
  | Some Gt => a
  | Some Eq =>
      match a with
      | S754_zero true => b
      | _ => a
      end
  end.

Definition Math_abs : number -> number := SFabs.

(** [ToBoolean] of a Number: false for [+0], [-0] and [NaN]. *)
Definition truthy (x : number) : bool :=
  match x with
  | S754_zero _ | S754_nan => false
  | _ => true
  end.

(** [x || d] on Numbers. *)
Definition orElse (x d : number) : number := if truthy x then x else d.

(** *** Reading numbers from strings *)

Definition isDigit (c : Z) : bool := (48 <=? c) && (c <=? 57).

(** The longest prefix of decimal digits, as digit values, and the rest. *)
Fixpoint readDigits (s : jsstring) : list Z * jsstring :=
  match s with
  | c :: r =>
      if isDigit c
      then let '(ds, rest) := readDigits r in ((c - 48) :: ds, rest)
      else ([], s)
  | [] => ([], [])
  end.

Definition hexValue (c : Z) : option Z :=
  if isDigit c then Some (c - 48)
  else if (97 <=? c) && (c <=? 102) then Some (c - 87)
  else if (65 <=? c) && (c <=? 70) then Some (c - 55)
  else None.

Fixpoint readHexDigits (s : jsstring) : list Z * jsstring :=
  match s with
  | c :: r =>
      match hexValue c with
      | Some v => let '(ds, rest) := readHexDigits r in (v :: ds, rest)
      | None => ([], s)
      end
  | [] => ([], [])
  end.

Definition digitsValue (radix : Z) (ds : list Z) : Z :=
  fold_left (fun acc d => acc * radix + d) ds 0.

(** An optional sign: [true] for [-], and the string after it. *)
Definition readSign (s : jsstring) : bool * jsstring :=
  match s with
  | c :: r =>
      if c =? 45 then (true, r)
      else if c =? 43 then (false, r)
      else (false, s)
  | [] => (false, [])
  end.

(** Whether the string starts with [0x] or [0X]. *)
Definition isHexPrefix (s : jsstring) : bool :=
  match s with
  | z :: x :: _ => (z =? 48) && ((x =? 120) || (x =? 88))
  | _ => false
  end.

Definition parseIntUnsigned (sign : bool) (s : jsstring) : number :=
  let hex := isHexPrefix s in
  let ds := if hex then fst (readHexDigits (skipn 2 s))
            else fst (readDigits s) in
  match ds with
  | [] => NaN
  | _ => ofMagnitude sign (digitsValue (if hex then 16 else 10) ds)
  end.

(** [parseInt(string)] with no radix: leading white space is skipped, a
    sign is read, [0x] selects base 16, and the longest prefix of digits
    is the value; [NaN] when there is none. *)
Definition parseInt (str : jsstring) : number :=
  let '(sign, s) := readSign (trimStart str) in
  parseIntUnsigned sign s.

(** The exponent part [e], [e+] or [e-] followed by digits; absent (0,
    nothing consumed) when no digit follows. *)
Definition readExponent (s : jsstring) : Z :=
  match s with
  | c :: r =>
      if (c =? 101) || (c =? 69) then
        let '(neg, r') := readSign r in
        match fst (readDigits r') with
        | [] => 0
        | ds => if neg then - digitsValue 10 ds else digitsValue 10 ds
        end
      else 0
  | [] => 0
  end.

Definition parseFloatUnsigned (sign : bool) (s : jsstring) : number :=
  if startsWith (lit "Infinity") s then S754_infinity sign
  else
    let '(ip, r1) := readDigits s in
    let '(fp, r2) :=
      match r1 with
      | c :: r => if c =? 46 then readDigits r else ([], r1)
      | [] => ([], r1)
      end in
    match ip ++ fp with
    | [] => NaN
    | ds => ofDecimal sign (digitsValue 10 ds)
              (readExponent r2 - Z.of_nat (length fp))
    end.

(** [parseFloat(string)]: the longest prefix that is a decimal literal
    (or [Infinity]) after leading white space and a sign. *)
Definition parseFloat (str : jsstring) : number :=
  let '(sign, s) := readSign (trimStart str) in
  parseFloatUnsigned sign s.

(** *** Writing numbers as strings *)

Definition sameNumber (a b : number) : bool :=
  match a, b with
  | S754_zero s, S754_zero t => Bool.eqb s t
  | S754_infinity s, S754_infinity t => Bool.eqb s t
  | S754_nan, S754_nan => true
  | S754_finite s m e, S754_finite t n f =>
      Bool.eqb s t && (Zpos m =? Zpos n) && (e =? f)
  | _, _ => false
  end.

Fixpoint decDigits_go (fuel : nat) (n : Z) (acc : list Z) : list Z :=
  match fuel with
  | O => acc
  | S f =>
      if n <? 10 then (n + 48) :: acc
      else decDigits_go f (n / 10) (n mod 10 + 48 :: acc)
  end.

(** The decimal digits of a non-negative integer, as code units. *)
Definition decDigits (n : Z) : jsstring :=
  decDigits_go (S (Z.to_nat (Z.log2 n))) n [].

(** Whether [p / q >= 10 ^ n]. *)
Definition geqPow10 (p q n : Z) : bool :=
  if 0 <=? n then q * 10 ^ n <=? p else q <=? p * 10 ^ (- n).

Fixpoint decExponent_go (fuel : nat) (p q n : Z) : Z :=
  match fuel with
  | O => n
  | S f => if geqPow10 p q n then decExponent_go f p q (n + 1) else n
  end.

(** The [n] with [10 ^ (n - 1) <= p / q < 10 ^ n], searched upwards from
    an estimate below it. *)
Definition decExponent (p q : Z) : Z :=
  decExponent_go 8 p q (((Z.log2 p - Z.log2 q - 1) * 1233) / 4096 - 1).

(** The shortest decimal [s * 10 ^ (n - k)], [s] of [k] digits, whose
    nearest Number is [m * 2 ^ e]; of two such decimals the one nearer to
    the value (Number::toString, step 5).  [k] runs from 1 upwards. *)
Fixpoint shortest_go (fuel : nat) (v : number) (p q n k : Z) : Z * Z :=
  match fuel with
  | O => (0, n)
  | S f =>
      let j := n - k in
      let P := if 0 <=? j then p else p * 10 ^ (- j) in
      let Q := if 0 <=? j then q * 10 ^ j else q in
      let lo := P / Q in
      let r := P mod Q in
      let okLo := (0 <? lo) && sameNumber (ofDecimal false lo j) v in
      let okHi := sameNumber (ofDecimal false (lo + 1) j) v in
      let pick (s : Z) := if s =? 10 ^ k then (s / 10, n + 1) else (s, n) in
      if okLo && okHi then
        match 2 * r ?= Q with
        | Lt => pick lo
        | Gt => pick (lo + 1)
        | Eq => if Z.even lo then pick lo else pick (lo + 1)
        end
      else if okLo then pick lo
      else if okHi then pick (lo + 1)
      else shortest_go f v p q n (k + 1)
  end.

Definition shortest (m : positive) (e : Z) : Z * Z :=
  let p := if 0 <=? e then Zpos m * 2 ^ e else Zpos m in
  let q := if 0 <=? e then 1 else 2 ^ (- e) in
  shortest_go 17 (S754_finite false m e) p q (decExponent p q) 1.

Definition zeros (n : Z) : jsstring := repeat 48 (Z.to_nat n).

(** Number::toString (radix 10) of a positive finite value. *)
Definition positiveToString (m : positive) (e : Z) : jsstring :=
  let '(s, n) := shortest m e in
  let ds := decDigits s in
  let k := jslength ds in
  if (k <=? n) && (n <=? 21) then ds ++ zeros (n - k)
  else if (0 <? n) && (n <=? 21) then
    firstn (Z.to_nat n) ds ++ lit "." ++ skipn (Z.to_nat n) ds
  else if (-6 <? n) && (n <=? 0) then lit "0." ++ zeros (- n) ++ ds
  else
    let ex := lit (if n - 1 <? 0 then "e-" else "e+")
              ++ decDigits (Z.abs (n - 1)) in
    if k =? 1 then ds ++ ex
    else firstn 1 ds ++ lit "." ++ skipn 1 ds ++ ex.

(** [ToString] of a Number, as a template literal applies it. *)
Definition numToString (x : number) : jsstring :=
  match x with
  | S754_nan => lit "NaN"
  | S754_zero _ => lit "0"
  | S754_infinity s => (if s then lit "-" else []) ++ lit "Infinity"
  | S754_finite s m e =>
      (if s then lit "-" else []) ++ positiveToString m e
  end.

(** A numeric literal of the source text. *)
Definition num (s : string) : number := parseFloat (lit s).

End JSNumber.
Export JSNumber.

(** ** Objects, sets and the page *)

Module JSObject.

(** The values a property read on the feature table can yield: a string
    of the table, a built-in function or the prototype object reached
    through the prototype chain, or [undefined]. *)
Inductive jsval : Type :=
  | VUndefined
  | VString (s : jsstring)
  | VFunction (name : jsstring)
  | VObject.

(** [ToBoolean]. *)
Definition truthyVal (v : jsval) : bool :=
  match v with
  | VUndefined => false
  | VString [] => false
  | _ => true
  end.

(** [ToString], as [Array.prototype.join] applies it to an element
    ([undefined] joins as the empty string; a built-in function prints
    as its native-code placeholder). *)
Definition valToString (v : jsval) : jsstring :=
  match v with
  | VUndefined => []
  | VString s => s
  | VFunction name => lit "function " ++ name ++ lit "() { [native code] }"
  | VObject => lit "[object Object]"
  end.

(** The properties every object literal inherits from
    [Object.prototype]. *)
Definition objectPrototype (key : jsstring) : jsval :=
  if bool_decide (key = lit "constructor") then VFunction (lit "Object")
  else if bool_decide (key = lit "__proto__") then VObject
  else if bool_decide (key ∈ map lit
            ["toString"; "toLocaleString"; "valueOf"; "hasOwnProperty";
             "isPrototypeOf"; "propertyIsEnumerable"; "__defineGetter__";
             "__defineSetter__"; "__lookupGetter__"; "__lookupSetter__"])
  then VFunction key
  else VUndefined.

(** [obj[key]] on an object literal with the own properties [own]. *)
Definition getProperty (own : gmap jsstring jsstring) (key : jsstring)
  : jsval :=
  match own !! key with
  | Some s => VString s
  | None => objectPrototype key
  end.

(** A [Set] of strings: its elements in insertion order. *)
Definition Set_has (s : list jsstring) (x : jsstring) : bool :=
  bool_decide (x ∈ s).

Definition Set_add (s : list jsstring) (x : jsstring) : list jsstring :=
  if Set_has s x then s else s ++ [x].

Definition Set_delete (s : list jsstring) (x : jsstring) : list jsstring :=
  filter (fun y => y ≠ x) s.

(** [a || b] on strings: [b] when [a] is empty. *)
Definition orString (a b : jsstring) : jsstring :=
  match a with
  | [] => b
  | _ => a
  end.

(** [a || b] on integer-valued Numbers (array lengths). *)
Definition orInt (a b : Z) : Z := if a =? 0 then b else a.

End JSObject.
Export JSObject.

(** The form controls and the preview element, as the engine reads
    them: the [value] of each input (the inputs are elements of the
    page, so every [getElementById] finds its element) and the measured
    width [offsetWidth], an integer. *)
Record Document : Type := {
  textInput_value : jsstring;
  fontSelect_value : jsstring;
  fontSize_value : jsstring;
  fontWeight_value : jsstring;
  letterSpacing_value : jsstring;
  lineHeight_value : jsstring;
  wordSpacing_value : jsstring;
  renderedText_offsetWidth : Z
}.

(** The fields of [FontRenderingEngine] the computations use, with the
    inline style and the text of the preview element [renderedText].
    The style is the map from property names to the strings assigned to
    them; what a browser makes of a string that is no valid value of its
    property is outside the model. *)
Record Engine : Type := {
  currentAlignment : jsstring;
  activeFeatures : list jsstring;
  layoutOptimization : bool;
  hyphenation : bool;
  layoutScore : Z;
  renderedText_style : gmap string jsstring;
  renderedText_textContent : jsstring
}.

Definition set_style (e : Engine) (st : gmap string jsstring) : Engine :=
  {| currentAlignment := currentAlignment e;
     activeFeatures := activeFeatures e;
     layoutOptimization := layoutOptimization e;
     hyphenation := hyphenation e;
     layoutScore := layoutScore e;
     renderedText_style := st;
     renderedText_textContent := renderedText_textContent e |}.

Definition set_layoutScore (e : Engine) (n : Z) : Engine :=
  {| currentAlignment := currentAlignment e;
     activeFeatures := activeFeatures e;
     layoutOptimization := layoutOptimization e;
     hyphenation := hyphenation e;
     layoutScore := n;
     renderedText_style := renderedText_style e;
     renderedText_textContent := renderedText_textContent e |}.

Definition set_textContent (e : Engine) (t : jsstring) : Engine :=
  {| currentAlignment := currentAlignment e;
     activeFeatures := activeFeatures e;
     layoutOptimization := layoutOptimization e;
     hyphenation := hyphenation e;
     layoutScore := layoutScore e;
     renderedText_style := renderedText_style e;
     renderedText_textContent := t |}.

Definition set_activeFeatures (e : Engine) (fs : list jsstring) : Engine :=
  {| currentAlignment := currentAlignment e;
     activeFeatures := fs;
     layoutOptimization := layoutOptimization e;
     hyphenation := hyphenation e;
     layoutScore := layoutScore e;
     renderedText_style := renderedText_style e;
     renderedText_textContent := renderedText_textContent e |}.

(** The engine as the constructor leaves it, before the first rendering. *)
Definition initialEngine : Engine :=
  {| currentAlignment := lit "left";
     activeFeatures := [lit "kerning"];
     layoutOptimization := false;
     hyphenation := false;
     layoutScore := 100;
     renderedText_style := ∅;
     renderedText_textContent := [] |}.

(** The [change] handler of a feature checkbox. *)
Definition toggleFeature (e : Engine) (feature : jsstring) (checked : bool)
  : Engine :=
  set_activeFeatures e
    (if checked then Set_add (activeFeatures e) feature
     else Set_delete (activeFeatures e) feature).

(** ** The engine's computations *)

Record Controls : Type := {
  fontFamily : jsstring;
  fontSize : jsstring;
  fontWeight : jsstring;
  letterSpacing : jsstring;
  lineHeight : jsstring;
  wordSpacing : jsstring
}.

Definition getControlValues (d : Document) : Controls :=
  {| fontFamily := orString (fontSelect_value d) (lit "serif");
     fontSize := orString (fontSize_value d) (lit "18");
     fontWeight := orString (fontWeight_value d) (lit "400");
     letterSpacing := orString (letterSpacing_value d) (lit "0");
     lineHeight := orString (lineHeight_value d) (lit "1.4");
     wordSpacing := orString (wordSpacing_value d) (lit "0") |}.

Definition applyBasicStyling (controls : Controls) (e : Engine) : Engine :=
  let style := renderedText_style e in
  let style := <["fontFamily" := fontFamily controls]> style in
  let style := <["fontSize" := fontSize controls ++ lit "px"]> style in
  let style := <["fontWeight" := fontWeight controls]> style in
  let style := <["letterSpacing" := letterSpacing controls ++ lit "px"]> style in
  let style := <["lineHeight" := lineHeight controls]> style in
  let style := <["wordSpacing" := wordSpacing controls ++ lit "px"]> style in
  let style := <["textAlign" := currentAlignment e]> style in
  set_style e style.

(** A double-quoted OpenType tag switched on: ["kern" 1]. *)
Definition tagOn (t : string) : jsstring := [34] ++ lit t ++ [34] ++ lit " 1".

Definition featureMap : gmap jsstring jsstring :=
  <[lit "kerning" := tagOn "kern"]>
  (<[lit "ligatures" := tagOn "liga" ++ lit ", " ++ tagOn "clig"]>
  (<[lit "smallCaps" := tagOn "smcp"]>
  (<[lit "oldstyleNums" := tagOn "onum"]>
  (<[lit "tabularNums" := tagOn "tnum" ++ lit ", " ++ tagOn "lnum"]>
  (<[lit "fractions" := tagOn "frac"]> ∅))))).

(** The loop of [applyOpenTypeFeatures]: each active feature whose table
    entry is truthy is pushed onto [features]. *)
Definition pushFeatures (active : list jsstring) : list jsval :=
  fold_left
    (fun features feature =>
       if truthyVal (getProperty featureMap feature)
       then features ++ [getProperty featureMap feature]
       else features)
    active [].

Definition applyOpenTypeFeatures (e : Engine) : Engine :=
  let features := pushFeatures (activeFeatures e) in
  set_style e
    (<["fontFeatureSettings" :=
         orString (join (lit ", ") (map valToString features)) (lit "normal")]>
       (renderedText_style e)).

Definition hasCommonLigatures (text : jsstring) : bool :=
  let commonLigatures := map lit ["fi"; "fl"; "ff"; "ffi"; "ffl"] in
  existsb (fun lig => includes text lig) commonLigatures.

(** [calculateLayoutScore].  The score is a small integer, exact as a
    Number, and is kept in [Z]; line height and letter spacing are parsed
    from the raw values of their inputs. *)
Definition calculateLayoutScore (d : Document) (text : jsstring) (e : Engine)
  : Engine :=
  let score := 100 in
  let avgLineLength :=
    div (ofZ (jslength text))
        (ofZ (orInt (Z.of_nat (length (splitChar 10 text))) 1)) in
  let score := if ltb (num "80") avgLineLength then score - 10 else score in
  let lineHeight := parseFloat (lineHeight_value d) in
  let score :=
    if leb (num "1.4") lineHeight && leb lineHeight (num "1.6")
    then score + 5 else score in
  let score :=
    if Set_has (activeFeatures e) (lit "ligatures") && hasCommonLigatures text
    then score + 5 else score in
  let letterSpacing := parseFloat (letterSpacing_value d) in
  let score :=
    if ltb (num "2") (Math_abs letterSpacing) then score - 5 else score in
  set_layoutScore e (Z.max 0 (Z.min 100 score)).

Definition applyLayoutOptimizations (d : Document) (text : jsstring)
  (e : Engine) : Engine :=
  let style := renderedText_style e in
  let style :=
    if hyphenation e
    then <["hyphenateCharacter" := [8208]]> (<["hyphens" := lit "auto"]> style)
    else <["hyphens" := lit "manual"]> style in
  let style :=
    if layoutOptimization e
    then <["fontVariantLigatures" := lit "common-ligatures contextual"]>
           (<["fontOpticalSizing" := lit "auto"]>
              (<["textRendering" := lit "optimizeLegibility"]> style))
    else <["fontVariantLigatures" := lit "normal"]>
           (<["fontOpticalSizing" := lit "none"]>
              (<["textRendering" := lit "auto"]> style)) in
  calculateLayoutScore d text (set_style e style).

Record TextMetrics : Type := {
  characters : Z;
  words : Z;
  lines : number
}.

(** The intermediate values of [calculateTextMetrics]: the estimated
    width of a character and the number of characters on a line. *)
Definition avgCharWidth (d : Document) : number :=
  let fontSize := parseInt (fontSize_value d) in
  mul fontSize (num "0.6").

Definition charsPerLine (d : Document) : number :=
  let containerWidth := ofZ (renderedText_offsetWidth d) in
  orElse (floor (div containerWidth (avgCharWidth d))) (ofZ 1).

Definition calculateTextMetrics (d : Document) (text : jsstring)
  : TextMetrics :=
  let words :=
    if bool_decide (trim text = [])
    then 0 else Z.of_nat (length (splitWS (trim text))) in
  let lines :=
    orElse (ceil (div (ofZ (jslength text)) (charsPerLine d))) (ofZ 1) in
  {| characters := jslength text; words := words; lines := lines |}.

(** The text [updateRendering] renders: the input, or the placeholder. *)
Definition renderedTextOf (d : Document) : jsstring :=
  orString (textInput_value d)
    (lit "Type your text here to see advanced font rendering...").

(** [updateRendering], without the timing and the animated counters. *)
Definition updateRendering (d : Document) (e : Engine) : Engine :=
  let text := renderedTextOf d in
  let controls := getControlValues d in
  let e := applyBasicStyling controls e in
  let e := applyOpenTypeFeatures e in
  let e := applyLayoutOptimizations d text e in
  set_textContent e text.

(** *** The exported style sheet *)

Definition nl : jsstring := [10].
Definition indent : jsstring := lit "    ".

(** One declaration [property: value;]. *)
Definition cssDecl (pv : string * jsstring) : jsstring :=
  lit (fst pv) ++ lit ": " ++ snd pv ++ lit ";".

(** [features.map(feature => featureMap[feature]).filter(Boolean).join(', ')] *)
Definition fontFeaturesOf (features : list jsstring) : jsstring :=
  join (lit ", ")
    (map valToString
       (List.filter truthyVal (map (getProperty featureMap) features))).

(** The declarations of the [.custom-typography] rule, in the order of
    the template: the seven that are always written, then the three
    interpolations that are empty when their condition is false. *)
Definition basicDeclarations (e : Engine) (controls : Controls)
  : list (string * jsstring) :=
  [ ("font-family", fontFamily controls);
    ("font-size", fontSize controls ++ lit "px");
    ("font-weight", fontWeight controls);
    ("letter-spacing", letterSpacing controls ++ lit "px");
    ("line-height", lineHeight controls);
    ("word-spacing", wordSpacing controls ++ lit "px");
    ("text-align", currentAlignment e) ].

Definition featureDeclarations (fontFeatures : jsstring)
  : list (string * jsstring) :=
  match fontFeatures with
  | [] => []
  | _ => [("font-feature-settings", fontFeatures)]
  end.

Definition hyphensDeclarations (e : Engine) : list (string * jsstring) :=
  if hyphenation e then [("hyphens", lit "auto")] else [].

Definition layoutDeclarations (e : Engine) : list (string * jsstring) :=
  if layoutOptimization e
  then [ ("text-rendering", lit "optimizeLegibility");
         ("font-optical-sizing", lit "auto");
         ("font-variant-ligatures", lit "common-ligatures contextual") ]
  else [].

Definition ruleDeclarations (e : Engine) (controls : Controls)
  (features : list jsstring) : list (string * jsstring) :=
  basicDeclarations e controls
  ++ featureDeclarations (fontFeaturesOf features)
  ++ hyphensDeclarations e
  ++ layoutDeclarations e.

(** The values of the two media queries. *)
Definition tabletFontSize (controls : Controls) : number :=
  Math_max (num "14") (mul (parseInt (fontSize controls)) (num "0.9")).

Definition tabletLineHeight (controls : Controls) : number :=
  Math_max (num "1.2") (mul (parseFloat (lineHeight controls)) (num "0.95")).

Definition mobileFontSize (controls : Controls) : number :=
  Math_max (num "12") (mul (parseInt (fontSize controls)) (num "0.8")).

Definition mobileLetterSpacing (controls : Controls) : number :=
  Math_max (num "0") (mul (parseFloat (letterSpacing controls)) (num "0.8")).

Definition tabletDeclarations (controls : Controls)
  : list (string * jsstring) :=
  [ ("font-size", numToString (tabletFontSize controls) ++ lit "px");
    ("line-height", numToString (tabletLineHeight controls)) ].

Definition mobileDeclarations (controls : Controls)
  : list (string * jsstring) :=
  [ ("font-size", numToString (mobileFontSize controls) ++ lit "px");
    ("letter-spacing",
     numToString (mobileLetterSpacing controls) ++ lit "px") ].

(** A media query with its nested rule, as the template lays it out. *)
Definition mediaBlock (width : string) (decls : list (string * jsstring))
  : jsstring :=
  lit "@media (max-width: " ++ lit width ++ lit ") {" ++ nl
  ++ indent ++ lit ".custom-typography {" ++ nl
  ++ concat (map (fun pv => indent ++ indent ++ cssDecl pv ++ nl) decls)
  ++ indent ++ lit "}" ++ nl
  ++ lit "}".

(** The [.custom-typography] rule of the template, line by line.  Each
    of the three conditional interpolations stands on a line of its own,
    which stays (blank) when the interpolation is empty. *)
Definition customTypographyRule (e : Engine) (controls : Controls)
  (features : list jsstring) : jsstring :=
  lit ".custom-typography {" ++ nl
  ++ concat (map (fun pv => indent ++ cssDecl pv ++ nl)
               (basicDeclarations e controls))
  ++ indent
  ++ concat (map cssDecl (featureDeclarations (fontFeaturesOf features)))
  ++ nl
  ++ indent ++ concat (map cssDecl (hyphensDeclarations e)) ++ nl
  ++ indent
  ++ concat (map (fun pv => nl ++ indent ++ cssDecl pv) (layoutDeclarations e))
  ++ nl
  ++ lit "}".

(** What the template puts before the media queries. *)
Definition styleSheetHead (e : Engine) (controls : Controls)
  (features : list jsstring) : jsstring :=
  lit "/* Advanced Font Rendering Styles */" ++ nl
  ++ customTypographyRule e controls features ++ nl
  ++ nl
  ++ lit "/* Responsive adjustments */" ++ nl.

(** [generateCSS(controls, features)]: the template literal. *)
Definition generateCSS (e : Engine) (controls : Controls)
  (features : list jsstring) : jsstring :=
  styleSheetHead e controls features
  ++ mediaBlock "768px" (tabletDeclarations controls) ++ nl
  ++ nl
  ++ mediaBlock "480px" (mobileDeclarations controls).

(** [exportCSS]: the text handed to the download. *)
Definition exportCSS (d : Document) (e : Engine) : jsstring :=
  let controls := getControlValues d in
  let features := activeFeatures e in
  generateCSS e controls features.

(** ** The handlers of the controls *)

Definition set_currentAlignment (e : Engine) (a : jsstring) : Engine :=
  {| currentAlignment := a;
     activeFeatures := activeFeatures e;
     layoutOptimization := layoutOptimization e;
     hyphenation := hyphenation e;
     layoutScore := layoutScore e;
     renderedText_style := renderedText_style e;
     renderedText_textContent := renderedText_textContent e |}.

Definition set_hyphenation (e : Engine) (b : bool) : Engine :=
  {| currentAlignment := currentAlignment e;
     activeFeatures := activeFeatures e;
     layoutOptimization := layoutOptimization e;
     hyphenation := b;
     layoutScore := layoutScore e;
     renderedText_style := renderedText_style e;
     renderedText_textContent := renderedText_textContent e |}.

Definition set_layoutOptimization (e : Engine) (b : bool) : Engine :=
  {| currentAlignment := currentAlignment e;
     activeFeatures := activeFeatures e;
     layoutOptimization := b;
     hyphenation := hyphenation e;
     layoutScore := layoutScore e;
     renderedText_style := renderedText_style e;
     renderedText_textContent := renderedText_textContent e |}.

(** The checkboxes [initializeEventListeners] attaches a [change]
    handler to. *)
Definition featureCheckboxes : list jsstring :=
  map lit ["kerning"; "ligatures"; "smallCaps"; "oldstyleNums";
           "tabularNums"; "fractions"].

(** The [change] handler of the checkbox [feature]: the set is updated
    and the preview rendered again. *)
Definition onFeatureChange (d : Document) (feature : jsstring)
  (checked : bool) (e : Engine) : Engine :=
  updateRendering d (toggleFeature e feature checked).

(** [setActiveAlignment(button, alignment)], without the [active] class
    of the buttons. *)
Definition setActiveAlignment (d : Document) (alignment : jsstring)
  (e : Engine) : Engine :=
  updateRendering d (set_currentAlignment e alignment).

(** The [change] handlers of the hyphenation and the layout checkbox,
    when their delayed call runs. *)
Definition onHyphenationChange (d : Document) (checked : bool) (e : Engine)
  : Engine :=
  updateRendering d (set_hyphenation e checked).

Definition onOptimizeLayoutChange (d : Document) (checked : bool)
  (e : Engine) : Engine :=
  updateRendering d (set_layoutOptimization e checked).

(** The states of the engine the page can bring about: the constructor
    renders once, and every handler ends in [updateRendering].  An edit
    of the text or of a control, a loaded sample and a resized window
    change the page and render it again. *)
Inductive reachable : Document -> Engine -> Prop :=
  | reach_constructor d :
      reachable d (updateRendering d initialEngine)
  | reach_feature d e feature checked :
      reachable d e -> In feature featureCheckboxes ->
      reachable d (onFeatureChange d feature checked e)
  | reach_alignment d e alignment :
      reachable d e -> reachable d (setActiveAlignment d alignment e)
  | reach_hyphenation d e checked :
      reachable d e -> reachable d (onHyphenationChange d checked e)
  | reach_optimizeLayout d e checked :
      reachable d e -> reachable d (onOptimizeLayoutChange d checked e)
  | reach_input d d' e :
      reachable d e -> reachable d' (updateRendering d' e).

(** ** Sums, rounding and strings read as Numbers *)

Definition numAdd : number -> number -> number := SFadd 53 1024.
Definition numSub : number -> number -> number := SFsub 53 1024.

(** [Math.min] of two values: NaN when either is NaN, and [-0] counts as
    smaller than [+0]. *)
Definition Math_min (a b : number) : number :=
  match SFcompare a b with
  | None => NaN
  | Some Lt => a
  | Some Gt => b
  | Some Eq =>
      match b with
      | S754_zero true => b
      | _ => a
      end
  end.

(** [Math.round]: the integer nearest to [x], a tie going up; a value
    with a non-negative exponent is an integer already, and a result of
    zero keeps the sign of [x]. *)
Definition Math_round (x : number) : number :=
  match x with
  | S754_finite s m e =>
      if 0 <=? e then x
      else
        let d := 2 ^ (- e) in
        let n := (2 * (if s then Zneg m else Zpos m) + d) / (2 * d) in
        match n with
        | Z0 => S754_zero s
        | Zpos p => ofPos false p
        | Zneg p => ofPos true p
        end
  | _ => x
  end.

(** The digits of a literal in base 2, 8 or 16. *)
Fixpoint readRadixDigits (radix : Z) (s : jsstring) : list Z * jsstring :=
  match s with
  | c :: r =>
      match hexValue c with
      | Some v =>
          if v <? radix
          then let '(ds, rest) := readRadixDigits radix r in (v :: ds, rest)
          else ([], s)
      | None => ([], s)
      end
  | [] => ([], [])
  end.

(** The base a prefix [0x], [0o] or [0b] selects. *)
Definition radixPrefix (s : jsstring) : option Z :=
  match s with
  | z :: x :: _ =>
      if z =? 48 then
        if (x =? 120) || (x =? 88) then Some 16
        else if (x =? 111) || (x =? 79) then Some 8
        else if (x =? 98) || (x =? 66) then Some 2
        else None
      else None
  | _ => None
  end.

(** The value of a string that is an unsigned decimal literal from its
    first to its last code unit, and [NaN] for any other string. *)
Definition strUnsignedDecimal (sign : bool) (s : jsstring) : number :=
  if bool_decide (s = lit "Infinity") then S754_infinity sign
  else
    let '(ip, r1) := readDigits s in
    let '(fp, r2) :=
      match r1 with
      | c :: r => if c =? 46 then readDigits r else ([], r1)
      | [] => ([], r1)
      end in
    match ip ++ fp with
    | [] => NaN
    | ds =>
        let k := Z.of_nat (length fp) in
        match r2 with
        | [] => ofDecimal sign (digitsValue 10 ds) (- k)
        | c :: r3 =>
            if (c =? 101) || (c =? 69) then
              let '(neg, r4) := readSign r3 in
              match readDigits r4 with
              | (x :: es, []) =>
                  let ex := digitsValue 10 (x :: es) in
                  ofDecimal sign (digitsValue 10 ds)
                    ((if neg then - ex else ex) - k)
              | _ => NaN
              end
            else NaN
        end
    end.

(** [ToNumber] of a string: white space around the literal is dropped,
    the empty string is [+0], a literal in base 2, 8 or 16 has no sign,
    and a string that is no literal as a whole is [NaN]. *)
Definition StringToNumber (str : jsstring) : number :=
  match trim str with
  | [] => S754_zero false
  | t =>
      match radixPrefix t with
      | Some radix =>
          match readRadixDigits radix (skipn 2 t) with
          | (x :: ds, []) => ofMagnitude false (digitsValue radix (x :: ds))
          | _ => NaN
          end
      | None => let '(sign, s) := readSign t in strUnsignedDecimal sign s
      end
  end.

(** The values the metric displays are given: a Number or a string. *)
Inductive Primitive : Type :=
  | PNumber (x : number)
  | PString (s : jsstring).

Definition ToNumber (v : Primitive) : number :=
  match v with
  | PNumber x => x
  | PString s => StringToNumber s
  end.

(** [a !== v] for a Number [a]: a string is never equal to it, [NaN] is
    equal to nothing, and the two zeros are equal. *)
Definition strictNotEqual (a : number) (v : Primitive) : bool :=
  match v with
  | PNumber x => negb (SFeqb a x)
  | PString _ => true
  end.

(** ** The animated counters *)

(** What [animateValue] closes over: its arguments and the time it was
    called at. *)
Record Animation : Type := {
  anim_start : number;
  anim_end : Primitive;
  anim_duration : number;
  anim_startTime : number
}.

Section Animation.

(** [Math.pow], which the language leaves to the implementation beyond
    its special cases. *)
Variable Math_pow : number -> number -> number.

Definition easeOutQuart (t : number) : number :=
  numSub (ofZ 1) (Math_pow (numSub (ofZ 1) t) (ofZ 4)).

(** One call of the frame callback [updateValue] at [currentTime]: the
    text it writes into the element and whether it asks for another
    frame. *)
Definition updateValue (a : Animation) (currentTime : number)
  : jsstring * bool :=
  let difference := numSub (ToNumber (anim_end a)) (anim_start a) in
  let elapsed := numSub currentTime (anim_startTime a) in
  let progress := Math_min (div elapsed (anim_duration a)) (ofZ 1) in
  let currentValue :=
    Math_round
      (numAdd (anim_start a) (mul difference (easeOutQuart progress))) in
  (numToString currentValue, ltb progress (ofZ 1)).

End Animation.

(** [updateMetricDisplay] on an element with the text [textContent],
    called at the time [now]: the animation it starts, if any. *)
Definition updateMetricDisplay (textContent : jsstring) (value : Primitive)
  (now : number) : option Animation :=
  let currentValue := orElse (parseInt textContent) (ofZ 0) in
  if strictNotEqual currentValue value
  then Some {| anim_start := currentValue;
               anim_end := value;
               anim_duration := ofZ 300;
               anim_startTime := now |}
  else None.

(** [updatePerformanceMetrics]: [now] is the clock when the rendering
    ends, [started] the clock when the animation is set up. *)
Definition updatePerformanceMetrics (renderStartTime now : number)
  (textContent : jsstring) (started : number) : option Animation :=
  let renderTime := Math_round (numSub now renderStartTime) in
  updateMetricDisplay textContent
    (PString (numToString renderTime ++ lit "ms")) started.

(** ** Fullscreen and the mobile controls *)

(** The two flags of the engine and the elements their handlers write:
    class lists in insertion order, the text of the fullscreen button and
    the ARIA attributes ([None] while an attribute is not set). *)
Record Chrome : Type := {
  isFullscreen : bool;
  isMobileControlsOpen : bool;
  renderingArea_classList : list jsstring;
  fullscreenBtn_textContent : jsstring;
  fullscreenBtn_ariaLabel : option jsstring;
  controlsWrapper_classList : list jsstring;
  controlsWrapper_ariaHidden : option jsstring;
  toggleBtn_classList : list jsstring;
  toggleBtn_ariaExpanded : option jsstring
}.

Definition toggleFullscreen (c : Chrome) : Chrome :=
  if negb (isFullscreen c) then
    {| isFullscreen := true;
       isMobileControlsOpen := isMobileControlsOpen c;
       renderingArea_classList :=
         Set_add (renderingArea_classList c) (lit "fullscreen-mode");
       fullscreenBtn_textContent := [9950];
       fullscreenBtn_ariaLabel := Some (lit "Exit fullscreen");
       controlsWrapper_classList := controlsWrapper_classList c;
       controlsWrapper_ariaHidden := controlsWrapper_ariaHidden c;
       toggleBtn_classList := toggleBtn_classList c;
       toggleBtn_ariaExpanded := toggleBtn_ariaExpanded c |}
  else
    {| isFullscreen := false;
       isMobileControlsOpen := isMobileControlsOpen c;
       renderingArea_classList :=
         Set_delete (renderingArea_classList c) (lit "fullscreen-mode");
       fullscreenBtn_textContent := [9974];
       fullscreenBtn_ariaLabel := Some (lit "Enter fullscreen");
       controlsWrapper_classList := controlsWrapper_classList c;
       controlsWrapper_ariaHidden := controlsWrapper_ariaHidden c;
       toggleBtn_classList := toggleBtn_classList c;
       toggleBtn_ariaExpanded := toggleBtn_ariaExpanded c |}.

(** The two [keydown] listeners that act on the fullscreen flag, in the
    order they are registered: Escape leaves fullscreen, F11 toggles. *)
Definition onKeydown (key : jsstring) (c : Chrome) : Chrome :=
  let c :=
    if bool_decide (key = lit "Escape") && isFullscreen c
    then toggleFullscreen c else c in
  if bool_decide (key = lit "F11") then toggleFullscreen c else c.

(** [ToString] of a boolean, as [setAttribute] applies it. *)
Definition boolToString (b : bool) : jsstring :=
  lit (if b then "true" else "false").

Definition toggleMobileControls (c : Chrome) : Chrome :=
  let open := negb (isMobileControlsOpen c) in
  {| isFullscreen := isFullscreen c;
     isMobileControlsOpen := open;
     renderingArea_classList := renderingArea_classList c;
     fullscreenBtn_textContent := fullscreenBtn_textContent c;
     fullscreenBtn_ariaLabel := fullscreenBtn_ariaLabel c;
     controlsWrapper_classList :=
       if open then Set_add (controlsWrapper_classList c) (lit "show")
       else Set_delete (controlsWrapper_classList c) (lit "show");
     controlsWrapper_ariaHidden := Some (boolToString (negb open));
     toggleBtn_classList :=
       if open then Set_add (toggleBtn_classList c) (lit "active")
       else Set_delete (toggleBtn_classList c) (lit "active");
     toggleBtn_ariaExpanded := Some (boolToString open) |}.

Definition breakpoints_tablet : Z := 768.

(** [updateMobileControlsState] in a window [innerWidth] pixels wide. *)
Definition updateMobileControlsState (innerWidth : Z) (c : Chrome) : Chrome :=
  let isMobile := innerWidth <=? breakpoints_tablet in
  if negb isMobile then
    {| isFullscreen := isFullscreen c;
       isMobileControlsOpen := isMobileControlsOpen c;
       renderingArea_classList := renderingArea_classList c;
       fullscreenBtn_textContent := fullscreenBtn_textContent c;
       fullscreenBtn_ariaLabel := fullscreenBtn_ariaLabel c;
       controlsWrapper_classList :=
         Set_add (controlsWrapper_classList c) (lit "show");
       controlsWrapper_ariaHidden := Some (lit "false");
       toggleBtn_classList := toggleBtn_classList c;
       toggleBtn_ariaExpanded := toggleBtn_ariaExpanded c |}
  else c.

(** ** The text drawn on the canvas *)

(** One call [ctx.fillText(text, x, y)]. *)
Record FillText : Type := {
  fill_text : jsstring;
  fill_x : number;
  fill_y : number
}.

Section Canvas.

(** [ctx.measureText(text).width] under the font of the context. *)
Variable measureText : jsstring -> number.

Variables (x maxWidth lineHeight : number).

(** The loop of [drawWrappedText] from the word at hand on ([first] at
    index 0) and the call after it: the calls of [fillText] in order. *)
Fixpoint wrapLoop (first : bool) (words : list jsstring) (line : jsstring)
  (currentY : number) : list FillText :=
  match words with
  | [] => [ {| fill_text := line; fill_x := x; fill_y := currentY |} ]
  | w :: rest =>
      let testLine := line ++ w ++ lit " " in
      let testWidth := measureText testLine in
      if ltb maxWidth testWidth && negb first then
        {| fill_text := line; fill_x := x; fill_y := currentY |}
        :: wrapLoop false rest (w ++ lit " ") (numAdd currentY lineHeight)
      else wrapLoop false rest testLine currentY
  end.

Definition drawWrappedText (text : jsstring) (y : number) : list FillText :=
  wrapLoop true (splitChar 32 text) [] y.

End Canvas.

(** * The vocabulary of the statements

    Sample pages, the predicates the statements are phrased with, and
    the specification's own tables and formulas, written from its words
    to compare the code with. *)

(** ** Sample pages *)

(** A page to evaluate the computations on: the controls at the values
    the fall-backs of [getControlValues] name, a 600 pixel wide preview. *)
Definition sampleDocument : Document :=
  {| textInput_value := lit "The office traffic was awful";
     fontSelect_value := lit "serif";
     fontSize_value := lit "18";
     fontWeight_value := lit "400";
     letterSpacing_value := lit "0";
     lineHeight_value := lit "1.4";
     wordSpacing_value := lit "0";
     renderedText_offsetWidth := 600 |}.


(** The controls of the sample page with a letter spacing of -3 pixels. *)
Definition negativeSpacingControls : Controls :=
  {| fontFamily := lit "serif";
     fontSize := lit "18";
     fontWeight := lit "400";
     letterSpacing := lit "-3";
     lineHeight := lit "1.4";
     wordSpacing := lit "0" |}.

(** The controls of the sample page with a font size of 18.5 pixels. *)
Definition fractionalSizeControls : Controls :=
  {| fontFamily := lit "serif";
     fontSize := lit "18.5";
     fontWeight := lit "400";
     letterSpacing := lit "0";
     lineHeight := lit "1.4";
     wordSpacing := lit "0" |}.

(** ** Words *)

(** A text of white space only (the empty text included). *)
Definition blank (s : jsstring) : Prop :=
  Forall (fun c => isWhiteSpace c = true) s.

(** A token: a non-empty run without white space; a gap: a non-empty run
    of white space. *)
Definition isToken (t : jsstring) : Prop :=
  t <> [] /\ Forall (fun c => isWhiteSpace c = false) t.

Definition isGap (g : jsstring) : Prop := g <> [] /\ blank g.

(** The text of a first token and further tokens, each behind its gap. *)
Definition tokensText (t : jsstring) (rest : list (jsstring * jsstring))
  : jsstring :=
  t ++ flat_map (fun gt => fst gt ++ snd gt) rest.

(** ** Feature tags *)

(** The six feature tags of the specification and its table. *)
Inductive FeatureTag : Type :=
  | kerning | ligatures | smallCaps | oldstyleNums | tabularNums | fractions.

Definition tagName (t : FeatureTag) : jsstring :=
  match t with
  | kerning => lit "kerning"
  | ligatures => lit "ligatures"
  | smallCaps => lit "smallCaps"
  | oldstyleNums => lit "oldstyleNums"
  | tabularNums => lit "tabularNums"
  | fractions => lit "fractions"
  end.

Definition featureTable (t : FeatureTag) : jsstring :=
  [34] ++
  match t with
  | kerning => lit "kern" ++ [34] ++ lit " 1"
  | ligatures =>
      lit "liga" ++ [34] ++ lit " 1, " ++ [34] ++ lit "clig" ++ [34] ++ lit " 1"
  | smallCaps => lit "smcp" ++ [34] ++ lit " 1"
  | oldstyleNums => lit "onum" ++ [34] ++ lit " 1"
  | tabularNums =>
      lit "tnum" ++ [34] ++ lit " 1, " ++ [34] ++ lit "lnum" ++ [34] ++ lit " 1"
  | fractions => lit "frac" ++ [34] ++ lit " 1"
  end.

(** The value the specification gives [font-feature-settings]. *)
Definition fontFeatureSettingsSpec (tags : list FeatureTag) : jsstring :=
  match tags with
  | [] => lit "normal"
  | _ => join (lit ", ") (map featureTable tags)
  end.

(** ** Style properties *)






(** ** Layout score *)

Definition newlineCount (text : jsstring) : Z :=
  Z.of_nat (count_occ Z.eq_dec text 10).

(** The score as the specification words it: from 100, minus 10 for an
    average line ([chars] over the newline count plus one, floored at
    one) longer than 80, plus 5 for a line height from 1.4 to 1.6, plus 5
    for active ligatures on a text with one of the listed letter groups,
    minus 5 for a letter spacing beyond 2 either way, clamped to 0..100. *)
Definition layoutScoreSpec (chars newlines : Z)
  (lineHeightN letterSpacingPx : number) (features : list jsstring)
  (text : jsstring) : Z :=
  let longLines :=
    ltb (ofZ 80) (div (ofZ chars) (ofZ (Z.max 1 (newlines + 1)))) in
  let goodLineHeight :=
    leb (num "1.4") lineHeightN && leb lineHeightN (num "1.6") in
  let ligatureBonus :=
    bool_decide (lit "ligatures" ∈ features)
    && (includes text (lit "fi") || includes text (lit "fl")
        || includes text (lit "ff") || includes text (lit "ffi")
        || includes text (lit "ffl")) in
  let wideSpacing := ltb (ofZ 2) (Math_abs letterSpacingPx) in
  Z.max 0
    (Z.min 100
       (100 - (if longLines then 10 else 0)
            + (if goodLineHeight then 5 else 0)
            + (if ligatureBonus then 5 else 0)
            - (if wideSpacing then 5 else 0))).

(** ** Numerals *)

(** A non-empty run of decimal digits, and an integer numeral: such a
    run behind an optional minus sign. *)
Definition digitsOnly (s : jsstring) : bool :=
  match s with
  | [] => false
  | _ => forallb isDigit s
  end.


(** The value of a run of digits. *)
Definition numeralValue (s : jsstring) : Z :=
  digitsValue 10 (map (fun c => c - 48) s).

(** What follows the digits of a numeral: nothing, or a code unit that
    is neither a digit nor the [x] of a hexadecimal prefix. *)
Definition endsDigits (rest : jsstring) : Prop :=
  match rest with
  | [] => True
  | c :: _ => isDigit c = false /\ c <> 120 /\ c <> 88
  end.

(** ** Signs of Numbers *)

(** Not negative and not [NaN]: [+0], a positive finite value or
    [+Infinity]; the same without the infinity, without the zero, and
    without both. *)
Definition nonneg (x : number) : bool :=
  match x with
  | S754_zero false | S754_finite false _ _ | S754_infinity false => true
  | _ => false
  end.



Definition finitePositive (x : number) : bool :=
  match x with
  | S754_finite false _ _ => true
  | _ => false
  end.


(** ** Assignments to a style *)

(** A style after a list of assignments, first to last, and the value
    the assignments leave a property with ([acc] when none names it). *)
Definition assignAll (kvs : list (string * jsstring))
  (m : gmap string jsstring) : gmap string jsstring :=
  fold_left (fun m kv => <[fst kv := snd kv]> m) kvs m.

Definition lastAssigned (k : string) (kvs : list (string * jsstring))
  (acc : option jsstring) : option jsstring :=
  fold_left (fun acc kv => if decide (fst kv = k) then Some (snd kv) else acc)
    kvs acc.

(** The assignments of one rendering, in the order [applyBasicStyling],
    [applyOpenTypeFeatures] and [applyLayoutOptimizations] make them:
    those before [textAlign], and those after it. *)
Definition assignmentsBeforeAlign (d : Document) : list (string * jsstring) :=
  let c := getControlValues d in
  [ ("fontFamily", fontFamily c);
    ("fontSize", fontSize c ++ lit "px");
    ("fontWeight", fontWeight c);
    ("letterSpacing", letterSpacing c ++ lit "px");
    ("lineHeight", lineHeight c);
    ("wordSpacing", wordSpacing c ++ lit "px") ].

Definition assignmentsAfterAlign (e : Engine) : list (string * jsstring) :=
  [ ("fontFeatureSettings",
     orString (fontFeaturesOf (activeFeatures e)) (lit "normal")) ]
  ++ (if hyphenation e
      then [ ("hyphens", lit "auto"); ("hyphenateCharacter", [8208]) ]
      else [ ("hyphens", lit "manual") ])
  ++ (if layoutOptimization e
      then [ ("textRendering", lit "optimizeLegibility");
             ("fontOpticalSizing", lit "auto");
             ("fontVariantLigatures", lit "common-ligatures contextual") ]
      else [ ("textRendering", lit "auto");
             ("fontOpticalSizing", lit "none");
             ("fontVariantLigatures", lit "normal") ]).

Definition renderedAssignments (d : Document) (e : Engine)
  : list (string * jsstring) :=
  assignmentsBeforeAlign d
  ++ ("textAlign", currentAlignment e) :: assignmentsAfterAlign e.

(** ** Further sample pages *)

(** The sample page with a font size of 0 pixels. *)
Definition zeroSizeDocument : Document :=
  {| textInput_value := lit "The office traffic was awful";
     fontSelect_value := lit "serif";
     fontSize_value := lit "0";
     fontWeight_value := lit "400";
     letterSpacing_value := lit "0";
     lineHeight_value := lit "1.4";
     wordSpacing_value := lit "0";
     renderedText_offsetWidth := 600 |}.

(** A page with another value in its line-height input. *)
Definition set_lineHeight_value (d : Document) (v : jsstring) : Document :=
  {| textInput_value := textInput_value d;
     fontSelect_value := fontSelect_value d;
     fontSize_value := fontSize_value d;
     fontWeight_value := fontWeight_value d;
     letterSpacing_value := letterSpacing_value d;
     lineHeight_value := v;
     wordSpacing_value := wordSpacing_value d;
     renderedText_offsetWidth := renderedText_offsetWidth d |}.

(** The sample page with a letter spacing of 3 pixels and nothing in
    its line-height input. *)
Definition noLineHeightDocument : Document :=
  {| textInput_value := lit "The office traffic was awful";
     fontSelect_value := lit "serif";
     fontSize_value := lit "18";
     fontWeight_value := lit "400";
     letterSpacing_value := lit "3";
     lineHeight_value := [];
     wordSpacing_value := lit "0";
     renderedText_offsetWidth := 600 |}.

(** ** The canvas *)

(** The tops of [n] lines from [y] down, each one [lineHeight] added to
    the one before. *)
Fixpoint baselines (lineHeight y : number) (n : nat) : list number :=
  match n with
  | O => []
  | S n' => y :: baselines lineHeight (numAdd y lineHeight) n'
  end.

(** A line that holds one word of [words] and its space, or that is not
    wider than [maxWidth]. *)
Definition oneWordOrFits (measureText : jsstring -> number)
  (maxWidth : number) (words : list jsstring) (line : jsstring) : Prop :=
  (exists w, In w words /\ line = w ++ lit " ")
  \/ ltb maxWidth (measureText line) = false.

(** Every line but the last is followed by a line whose first word did
    not fit behind it. *)
Fixpoint breaksNeeded (measureText : jsstring -> number) (maxWidth : number)
  (calls : list FillText) : Prop :=
  match calls with
  | c1 :: rest =>
      match rest with
      | c2 :: _ =>
          (exists w tail,
             fill_text c2 = w ++ lit " " ++ tail /\
             ltb maxWidth (measureText (fill_text c1 ++ w ++ lit " ")) = true)
          /\ breaksNeeded measureText maxWidth rest
      | [] => True
      end
  | [] => True
  end.

(** A width taken from the length of the text, for evaluation. *)
Definition tenPerUnit (s : jsstring) : number := ofZ (10 * jslength s).

(** ** Strings that are no numbers *)

(** A string whose last code unit is the letter s. *)
Definition endsWith_s (s : jsstring) : Prop := exists p, s = p ++ [115].

(** ** The page around the preview *)

Definition fullscreenClass (c : Chrome) : Prop :=
  In (lit "fullscreen-mode") (renderingArea_classList c).

Definition controlsShown (c : Chrome) : Prop :=
  In (lit "show") (controlsWrapper_classList c).

(** A page to evaluate the handlers on: the flags as the constructor
    sets them, no class and no ARIA attribute set. *)
Definition initialChrome : Chrome :=
  {| isFullscreen := false;
     isMobileControlsOpen := false;
     renderingArea_classList := [];
     fullscreenBtn_textContent := [9974];
     fullscreenBtn_ariaLabel := None;
     controlsWrapper_classList := [];
     controlsWrapper_ariaHidden := None;
     toggleBtn_classList := [];
     toggleBtn_ariaExpanded := None |}.

(** * Properties *)

(** Lookups in a style built by assignments, and membership in a list of
    declarations built by cases. *)
Ltac style_lookup :=
  repeat first
    [ rewrite lookup_insert_eq
    | rewrite lookup_insert_ne by discriminate ].



(** ** The number model on known values *)

(** The literals of the source as binary64 values (mantissa and
    exponent): 0.6 is 0x1.3333333333333p-1, 0.9 is 0x1.ccccccccccccdp-1,
    0.8 is 0x1.999999999999ap-1, 1.4 is 0x1.6666666666666p+0. *)
Example number_literals :
  num "0.6" = S754_finite false 5404319552844595 (-53) /\
  num "0.9" = S754_finite false 8106479329266893 (-53) /\
  num "0.8" = S754_finite false 7205759403792794 (-53) /\
  num "1.4" = S754_finite false 6305039478318694 (-52) /\
  num "80" = ofZ 80 /\ ofZ 1 = S754_finite false 4503599627370496 (-52).
Proof. repeat split; vm_compute; reflexivity. Qed.

(** Products round as in IEEE 754 and print as the shortest decimal
    that reads back: [18 * 0.9] is 16.2, [0.8 * 0.8] is
    0.6400000000000001, [3 * 0.6] is 1.7999999999999998. *)
Example number_products :
  numToString (mul (ofZ 18) (num "0.9")) = lit "16.2" /\
  numToString (mul (num "0.8") (num "0.8")) = lit "0.6400000000000001" /\
  numToString (mul (ofZ 3) (num "0.6")) = lit "1.7999999999999998" /\
  numToString (num "1e21") = lit "1e+21" /\
  numToString (num "0.000001") = lit "0.000001" /\
  numToString (num "1e-7") = lit "1e-7" /\
  numToString (parseFloat (lit "abc")) = lit "NaN".
Proof. repeat split; vm_compute; reflexivity. Qed.

(** [parseInt] and [parseFloat] on the forms an input value can take. *)
Example number_parsing :
  parseInt (lit "18") = ofZ 18 /\
  parseInt (lit "18.5") = ofZ 18 /\
  parseInt (lit "-10") = ofZ (-10) /\
  parseInt (lit "0x1F") = ofZ 31 /\
  parseInt [] = NaN /\
  parseFloat (lit "-3") = ofZ (-3) /\
  numToString (parseFloat (lit "18.5")) = lit "18.5" /\
  floor (parseFloat (lit "-2.5")) = ofZ (-3) /\
  ceil (parseFloat (lit "-2.5")) = ofZ (-2) /\
  ceil (parseFloat (lit "-0.5")) = S754_zero true.
Proof. repeat split; vm_compute; reflexivity. Qed.

(** ** Character count *)

Section Characters.

Variable d : Document.

Lemma characters_length (text : jsstring) :
  characters (calculateTextMetrics d text) = jslength text.
Proof. reflexivity. Qed.

Lemma encodeCodePoint_length (cp : Z) :
  length (encodeCodePoint cp) = if cp <? 65536 then 1%nat else 2%nat.
Proof. unfold encodeCodePoint. destruct (cp <? 65536); reflexivity. Qed.

Lemma fromCodePoints_length (cps : list Z) :
  Z.of_nat (length (fromCodePoints cps))
  = Z.of_nat (length cps)
    + Z.of_nat (length (List.filter (fun cp => 65536 <=? cp) cps)).
Proof.
  induction cps as [|cp cps IH]; [reflexivity|].
  unfold fromCodePoints in *. cbn [flat_map List.filter].
  rewrite length_app, encodeCodePoint_length.
  destruct (Z.ltb_spec cp 65536) as [Hlt|Hge].
  - destruct (Z.leb_spec 65536 cp); [lia|]. cbn [length]. lia.
  - destruct (Z.leb_spec 65536 cp); [|lia]. cbn [length]. lia.
Qed.

(** Decoding the UTF-16 form of scalar values gives them back. *)
Lemma codePoints_fromCodePoints (cps : list Z) :
  Forall isScalar cps -> codePoints (fromCodePoints cps) = cps.
Proof.
  induction 1 as [|cp cps Hcp _ IH]; [reflexivity|].
  unfold fromCodePoints in *. cbn [flat_map].
  unfold encodeCodePoint at 1.
  destruct (Z.ltb_spec cp 65536) as [Hlt|Hge].
  - cbn [app codePoints].
    destruct (flat_map encodeCodePoint cps) as [|u us] eqn:E.
    + now rewrite <- IH.
    + assert (Hhi : isHighSurrogate cp = false).
      { unfold isHighSurrogate, isScalar in *.
        destruct (Z.leb_spec 55296 cp), (Z.leb_spec cp 56319);
          cbn; try reflexivity; lia. }
      rewrite Hhi. cbn [andb]. now rewrite IH.
  - assert (Hr : 0 <= cp - 65536 < 1048576) by (unfold isScalar in Hcp; lia).
    pose proof (Z.div_pos (cp - 65536) 1024 ltac:(lia) ltac:(lia)).
    pose proof (Z.div_lt_upper_bound (cp - 65536) 1024 1024 ltac:(lia) ltac:(lia)).
    pose proof (Z.mod_pos_bound (cp - 65536) 1024 ltac:(lia)).
    cbn [app codePoints].
    assert (Hhi : isHighSurrogate (55296 + (cp - 65536) / 1024) = true).
    { unfold isHighSurrogate. apply andb_true_intro; split; apply Z.leb_le; lia. }
    assert (Hlo : isLowSurrogate (56320 + (cp - 65536) mod 1024) = true).
    { unfold isLowSurrogate. apply andb_true_intro; split; apply Z.leb_le; lia. }
    rewrite Hhi, Hlo. cbn [andb]. rewrite IH. f_equal.
    pose proof (Z.div_mod (cp - 65536) 1024 ltac:(lia)). lia.
Qed.

End Characters.

(** C2, as the code has it: [characters] is [text.length], the number of
    UTF-16 code units.  For the text of the scalar values [cps] (whose
    code points are [cps] again), every scalar value counts once and each
    one outside the Basic Multilingual Plane counts once more. *)
Theorem characters_counts_code_units (d : Document) (cps : list Z) :
  Forall isScalar cps ->
  codePoints (fromCodePoints cps) = cps /\
  characters (calculateTextMetrics d (fromCodePoints cps))
  = Z.of_nat (length cps)
    + Z.of_nat (length (List.filter (fun cp => 65536 <=? cp) cps)).
Proof.
  intros H. split.
  - now apply codePoints_fromCodePoints.
  - rewrite characters_length. apply fromCodePoints_length.
Qed.

(** The text "a" followed by U+1F600: two scalar values, three units. *)
Lemma characters_counts_code_units_witness :
  Forall isScalar [97; 128512] /\
  codePoints (fromCodePoints [97; 128512]) = [97; 128512] /\
  characters (calculateTextMetrics sampleDocument (fromCodePoints [97; 128512]))
  = Z.of_nat (length [97; 128512])
    + Z.of_nat (length (List.filter (fun cp => 65536 <=? cp) [97; 128512])).
Proof.
  assert (H : Forall isScalar [97; 128512]).
  { repeat constructor; unfold isScalar; lia. }
  split; [exact H|].
  exact (characters_counts_code_units sampleDocument [97; 128512] H).
Defined.

(** C2 as stated fails: for the one-character text U+1F600 (the
    surrogate pair D83D DE00) the string holds one code point and
    [characters] is 2. *)
Lemma characters_not_code_points :
  codePoints [55357; 56832] = [128512] /\
  characters (calculateTextMetrics sampleDocument [55357; 56832])
  <> Z.of_nat (length (codePoints [55357; 56832])).
Proof. split; [reflexivity | vm_compute; discriminate]. Qed.

(** ** Word count *)

Section Words.

Lemma trimStart_blank (g s : jsstring) :
  blank g -> trimStart (g ++ s) = trimStart s.
Proof.
  induction 1 as [|c g Hc _ IH]; [reflexivity|].
  cbn [app trimStart]. now rewrite Hc.
Qed.

Lemma trimStart_blank_nil (g : jsstring) : blank g -> trimStart g = [].
Proof.
  intros H. rewrite <- (app_nil_r g). now rewrite trimStart_blank.
Qed.

Lemma trim_blank (g : jsstring) : blank g -> trim g = [].
Proof.
  intros H. unfold trim, trimEnd. now rewrite (trimStart_blank_nil g H).
Qed.

Lemma blank_rev (g : jsstring) : blank g -> blank (rev g).
Proof. unfold blank. apply Forall_rev. Qed.

(** A text that begins and ends outside white space is its own trim,
    whatever white space surrounds it. *)
Lemma trim_surrounded (lead trail body : jsstring) (a b : Z) (mid : jsstring) :
  blank lead -> blank trail ->
  isWhiteSpace a = false -> isWhiteSpace b = false ->
  (body = a :: mid ++ [b] \/ (body = [a] /\ a = b)) ->
  trim (lead ++ body ++ trail) = body.
Proof.
  intros Hl Ht Ha Hb Hbody. unfold trim, trimEnd.
  rewrite trimStart_blank by assumption.
  assert (Hs : trimStart (body ++ trail) = body ++ trail).
  { destruct Hbody as [-> | [-> _]]; cbn [app trimStart]; now rewrite Ha. }
  rewrite Hs, rev_app_distr, trimStart_blank by now apply blank_rev.
  assert (Hr : trimStart (rev body) = rev body).
  { destruct Hbody as [-> | [-> ->]].
    - cbn [rev]. rewrite rev_app_distr. cbn [rev app trimStart]. now rewrite Hb.
    - cbn [rev app trimStart]. now rewrite Hb. }
  rewrite Hr. apply rev_involutive.
Qed.

Lemma splitWS_go_token (t : jsstring) :
  Forall (fun c => isWhiteSpace c = false) t ->
  forall sep cur s, t <> [] ->
  splitWS_go sep cur (t ++ s) = splitWS_go false (rev t ++ cur) s.
Proof.
  induction 1 as [|c t Hc Ht IH]; intros sep cur s Hne; [congruence|].
  cbn [app splitWS_go]. rewrite Hc.
  destruct t as [|c' t'].
  - reflexivity.
  - rewrite IH by discriminate. cbn [rev]. now rewrite <- !app_assoc.
Qed.

Lemma splitWS_go_gap_more (g : jsstring) :
  blank g -> forall cur s, splitWS_go true cur (g ++ s) = splitWS_go true cur s.
Proof.
  induction 1 as [|c g Hc _ IH]; intros cur s; [reflexivity|].
  cbn [app splitWS_go]. now rewrite Hc.
Qed.

Lemma splitWS_go_gap (g : jsstring) (cur s : jsstring) :
  isGap g ->
  splitWS_go false cur (g ++ s) = rev cur :: splitWS_go true [] s.
Proof.
  intros [Hne Hg]. destruct Hg as [|c g Hc Hg]; [congruence|].
  cbn [app splitWS_go]. rewrite Hc. now rewrite splitWS_go_gap_more.
Qed.

Lemma splitWS_go_tokens (rest : list (jsstring * jsstring)) :
  Forall (fun gt => isGap (fst gt) /\ isToken (snd gt)) rest ->
  forall cur,
  length (splitWS_go false cur (flat_map (fun gt => fst gt ++ snd gt) rest))
  = S (length rest).
Proof.
  induction 1 as [|[g t] rest [Hg [Hne Ht]] _ IH]; intros cur; [reflexivity|].
  cbn [flat_map fst snd] in *. rewrite <- app_assoc.
  rewrite splitWS_go_gap by assumption.
  rewrite splitWS_go_token by assumption.
  cbn [length]. now rewrite IH.
Qed.

Lemma splitWS_tokensText (t : jsstring) (rest : list (jsstring * jsstring)) :
  isToken t ->
  Forall (fun gt => isGap (fst gt) /\ isToken (snd gt)) rest ->
  length (splitWS (tokensText t rest)) = S (length rest).
Proof.
  intros [Hne Ht] Hrest. unfold splitWS, tokensText.
  rewrite splitWS_go_token by assumption. now apply splitWS_go_tokens.
Qed.

(** The shape [trim_surrounded] asks for: a text of tokens begins and
    ends outside white space. *)
Lemma tokensText_ends (t : jsstring) (rest : list (jsstring * jsstring)) :
  isToken t ->
  Forall (fun gt => isGap (fst gt) /\ isToken (snd gt)) rest ->
  exists a b mid,
    isWhiteSpace a = false /\ isWhiteSpace b = false /\
    (tokensText t rest = a :: mid ++ [b] \/ (tokensText t rest = [a] /\ a = b)).
Proof.
  intros [Hne Ht] Hrest. unfold tokensText.
  destruct t as [|a t']; [congruence|].
  apply Forall_cons_iff in Ht as [Ha Ht'].
  assert (Hlast : forall (s : jsstring) (x : Z),
             isWhiteSpace x = false ->
             (s = [] \/ exists s' b, s = s' ++ [b] /\ isWhiteSpace b = false) ->
             exists b mid, isWhiteSpace b = false /\
               (x :: s = x :: mid ++ [b] \/ (x :: s = [x] /\ x = b))).
  { intros s x Hx [-> | (s' & b & -> & Hb)].
    - exists x, []. split; [assumption|]. now right.
    - exists b, s'. split; [assumption|]. now left. }
  assert (Htail : (t' ++ flat_map (fun gt => fst gt ++ snd gt) rest) = []
                  \/ exists s' b,
                       t' ++ flat_map (fun gt => fst gt ++ snd gt) rest = s' ++ [b]
                       /\ isWhiteSpace b = false).
  { clear Hne Hlast. revert t' Ht'.
    induction Hrest as [|[g u] rest [_ [Hu Hfu]] _ IH]; intros t' Ht'.
    - cbn [flat_map]. rewrite app_nil_r.
      destruct (rev t') as [|b r] eqn:E.
      + left. apply (f_equal (@rev Z)) in E. now rewrite rev_involutive in E.
      + right. exists (rev r), b.
        apply (f_equal (@rev Z)) in E. rewrite rev_involutive in E. cbn [rev] in E.
        split; [assumption|].
        rewrite List.Forall_forall in Ht'. apply Ht'. rewrite E.
        apply in_or_app. right. now left.
    - cbn [flat_map fst snd].
      destruct (IH u Hfu) as [Hnil | (s' & b & Heq & Hb)].
      + cbn [snd] in Hu; destruct u; [congruence | discriminate Hnil].
      + right. exists (t' ++ g ++ s'), b. split; [|assumption].
        rewrite <- !app_assoc. now rewrite Heq. }
  destruct (Hlast _ a Ha Htail) as (b & mid & Hb & Hshape).
  exists a, b, mid. cbn [app]. auto.
Qed.

End Words.

(** C6: [words] is 0 when the trimmed text is empty, as it is for a text
    of white space only (the empty text included), and otherwise the
    number of pieces of the trimmed text split at its runs of white
    space; for a text of [n] tokens separated by runs of white space of
    any length, with any white space around, that number is [n].  Two
    tokens give 2 whatever the run between them. *)
Theorem words_count (d : Document) :
  (forall text,
     (trim text = [] -> words (calculateTextMetrics d text) = 0) /\
     (trim text <> [] ->
      words (calculateTextMetrics d text)
      = Z.of_nat (length (splitWS (trim text))))) /\
  (forall text, blank text -> words (calculateTextMetrics d text) = 0) /\
  (forall lead trail t rest,
     blank lead -> blank trail -> isToken t ->
     Forall (fun gt => isGap (fst gt) /\ isToken (snd gt)) rest ->
     trim (lead ++ tokensText t rest ++ trail) = tokensText t rest /\
     words (calculateTextMetrics d (lead ++ tokensText t rest ++ trail))
     = Z.of_nat (length (splitWS (tokensText t rest))) /\
     words (calculateTextMetrics d (lead ++ tokensText t rest ++ trail))
     = Z.of_nat (S (length rest))) /\
  (forall t1 gap t2,
     isToken t1 -> isGap gap -> isToken t2 ->
     words (calculateTextMetrics d (t1 ++ gap ++ t2)) = 2).
Proof.
  assert (Hmain : forall lead trail t rest,
     blank lead -> blank trail -> isToken t ->
     Forall (fun gt => isGap (fst gt) /\ isToken (snd gt)) rest ->
     trim (lead ++ tokensText t rest ++ trail) = tokensText t rest /\
     words (calculateTextMetrics d (lead ++ tokensText t rest ++ trail))
     = Z.of_nat (length (splitWS (tokensText t rest))) /\
     words (calculateTextMetrics d (lead ++ tokensText t rest ++ trail))
     = Z.of_nat (S (length rest))).
  { intros lead trail t rest Hl Htr Ht Hrest.
    destruct (tokensText_ends t rest Ht Hrest) as (a & b & mid & Ha & Hb & Hshape).
    pose proof (trim_surrounded lead trail _ a b mid Hl Htr Ha Hb Hshape) as Htrim.
    split; [exact Htrim|].
    assert (Hne : tokensText t rest <> []).
    { destruct Hshape as [-> | [-> _]]; discriminate. }
    cbn [calculateTextMetrics words]. rewrite Htrim.
    rewrite bool_decide_eq_false_2 by exact Hne.
    split; [reflexivity|].
    now rewrite splitWS_tokensText. }
  split; [|split; [|split]].
  - intros text. cbn [calculateTextMetrics words]. split; intros H.
    + now rewrite bool_decide_eq_true_2.
    + now rewrite bool_decide_eq_false_2.
  - intros text Hb. cbn [calculateTextMetrics words].
    rewrite trim_blank by assumption. reflexivity.
  - exact Hmain.
  - intros t1 gap t2 H1 Hg H2.
    destruct (Hmain [] [] t1 [(gap, t2)]) as (_ & _ & Hw);
      try assumption; try constructor; auto.
    unfold tokensText in Hw. cbn [flat_map fst snd app] in Hw.
    rewrite !app_nil_r in Hw. exact Hw.
Qed.

(** The texts "hello world" and "hello   world", and a blank one. *)
Lemma words_count_witness :
  words (calculateTextMetrics sampleDocument (lit "   ")) = 0 /\
  words (calculateTextMetrics sampleDocument (lit "hello world")) = 2 /\
  words (calculateTextMetrics sampleDocument (lit "hello" ++ lit "   " ++ lit "world")) = 2.
Proof.
  assert (Hh : isToken (lit "hello")).
  { split; [discriminate | repeat constructor]. }
  assert (Hw : isToken (lit "world")).
  { split; [discriminate | repeat constructor]. }
  assert (H1 : isGap (lit " ")).
  { split; [discriminate | repeat constructor]. }
  assert (H3 : isGap (lit "   ")).
  { split; [discriminate | repeat constructor]. }
  destruct (words_count sampleDocument) as (_ & Hblank & _ & Htwo).
  split; [|split].
  - apply Hblank. repeat constructor.
  - exact (Htwo (lit "hello") (lit " ") (lit "world") Hh H1 Hw).
  - exact (Htwo (lit "hello") (lit "   ") (lit "world") Hh H3 Hw).
Defined.

(** ** The OpenType feature string *)

Section Features.

Lemma pushFeatures_acc (active : list jsstring) (acc : list jsval) :
  fold_left
    (fun features feature =>
       if truthyVal (getProperty featureMap feature)
       then features ++ [getProperty featureMap feature]
       else features)
    active acc
  = acc ++ List.filter truthyVal (map (getProperty featureMap) active).
Proof.
  revert acc. induction active as [|f active IH]; intros acc; cbn [fold_left map List.filter].
  - now rewrite app_nil_r.
  - rewrite IH. destruct (truthyVal (getProperty featureMap f)).
    + now rewrite <- app_assoc.
    + reflexivity.
Qed.

(** The loop of the live style and the [map]/[filter] chain of the export
    select the same table entries. *)
Lemma pushFeatures_filter (active : list jsstring) :
  pushFeatures active
  = List.filter truthyVal (map (getProperty featureMap) active).
Proof. unfold pushFeatures. now rewrite pushFeatures_acc. Qed.

Lemma liveFeatureSettings (e : Engine) :
  renderedText_style (applyOpenTypeFeatures e) !! "fontFeatureSettings"
  = Some (orString (fontFeaturesOf (activeFeatures e)) (lit "normal")).
Proof.
  unfold applyOpenTypeFeatures, fontFeaturesOf. cbn [set_style renderedText_style].
  rewrite lookup_insert_eq. now rewrite pushFeatures_filter.
Qed.

(** A tag that the table and the prototype chain both lack adds nothing
    to either feature string. *)
Lemma absent_tag_ignored (tag : jsstring) (before after : list jsstring) :
  getProperty featureMap tag = VUndefined ->
  pushFeatures (before ++ tag :: after) = pushFeatures (before ++ after) /\
  fontFeaturesOf (before ++ tag :: after) = fontFeaturesOf (before ++ after).
Proof.
  intros H. unfold fontFeaturesOf. rewrite !pushFeatures_filter.
  rewrite !map_app, !List.filter_app. cbn [map List.filter]. rewrite H.
  cbn [truthyVal]. split; reflexivity.
Qed.

End Features.

Lemma getProperty_tag (t : FeatureTag) :
  getProperty featureMap (tagName t) = VString (featureTable t).
Proof. destruct t; vm_compute; reflexivity. Qed.

Lemma fontFeaturesOf_tags (tags : list FeatureTag) :
  fontFeaturesOf (map tagName tags) = join (lit ", ") (map featureTable tags).
Proof.
  unfold fontFeaturesOf. f_equal.
  induction tags as [|t tags IH]; [reflexivity|].
  cbn [map]. rewrite getProperty_tag.
  replace (truthyVal (VString (featureTable t))) with true
    by (destruct t; reflexivity).
  cbn [List.filter map valToString].
  replace (truthyVal (VString (featureTable t))) with true
    by (destruct t; reflexivity).
  cbn [map valToString]. now rewrite IH.
Qed.

(** C5: for the active features [tags] (in insertion order) the live
    [font-feature-settings] is the table entries joined with a comma and
    a space, and [normal] when there is none; starting from the
    constructor's set and switching ligatures on gives
    ["kern" 1, "liga" 1, "clig" 1]. *)
Theorem fontFeatureSettings_table (e : Engine) (tags : list FeatureTag) :
  renderedText_style
    (applyOpenTypeFeatures (set_activeFeatures e (map tagName tags)))
    !! "fontFeatureSettings"
  = Some (fontFeatureSettingsSpec tags)
  /\ renderedText_style
       (applyOpenTypeFeatures (set_activeFeatures e [])) !! "fontFeatureSettings"
     = Some (lit "normal")
  /\ activeFeatures (toggleFeature initialEngine (lit "ligatures") true)
     = map tagName [kerning; ligatures]
  /\ renderedText_style
       (applyOpenTypeFeatures (toggleFeature initialEngine (lit "ligatures") true))
       !! "fontFeatureSettings"
     = Some ([34] ++ lit "kern" ++ [34] ++ lit " 1, "
             ++ [34] ++ lit "liga" ++ [34] ++ lit " 1, "
             ++ [34] ++ lit "clig" ++ [34] ++ lit " 1").
Proof.
  split; [|split; [|split]].
  - rewrite liveFeatureSettings. cbn [set_activeFeatures activeFeatures].
    rewrite fontFeaturesOf_tags. f_equal.
    destruct tags as [|t tags]; [reflexivity|].
    unfold fontFeatureSettingsSpec.
    destruct tags; destruct t; reflexivity.
  - rewrite liveFeatureSettings. reflexivity.
  - vm_compute. reflexivity.
  - rewrite liveFeatureSettings. vm_compute. reflexivity.
Qed.


(** ** The exported rule and the live style *)

Section ExportedRule.

Variables (d : Document) (e : Engine).

Lemma updateRendering_style :
  renderedText_style (updateRendering d e)
  = let c := getControlValues d in
    let s0 :=
      <["fontFeatureSettings" :=
          orString (fontFeaturesOf (activeFeatures e)) (lit "normal")]>
      (<["textAlign" := currentAlignment e]>
      (<["wordSpacing" := wordSpacing c ++ lit "px"]>
      (<["lineHeight" := lineHeight c]>
      (<["letterSpacing" := letterSpacing c ++ lit "px"]>
      (<["fontWeight" := fontWeight c]>
      (<["fontSize" := fontSize c ++ lit "px"]>
      (<["fontFamily" := fontFamily c]> (renderedText_style e)))))))) in
    let s1 :=
      if hyphenation e
      then <["hyphenateCharacter" := [8208]]> (<["hyphens" := lit "auto"]> s0)
      else <["hyphens" := lit "manual"]> s0 in
    if layoutOptimization e
    then <["fontVariantLigatures" := lit "common-ligatures contextual"]>
           (<["fontOpticalSizing" := lit "auto"]>
              (<["textRendering" := lit "optimizeLegibility"]> s1))
    else <["fontVariantLigatures" := lit "normal"]>
           (<["fontOpticalSizing" := lit "none"]>
              (<["textRendering" := lit "auto"]> s1)).
Proof.
  unfold updateRendering, applyLayoutOptimizations, calculateLayoutScore,
    applyOpenTypeFeatures, applyBasicStyling, fontFeaturesOf.
  cbn [set_style set_layoutScore set_textContent renderedText_style
       hyphenation layoutOptimization activeFeatures currentAlignment].
  now rewrite pushFeatures_filter.
Qed.

End ExportedRule.









(** The exported text for the sample page, line by line. *)
Example exportCSS_sample :
  exportCSS sampleDocument initialEngine
  = join nl
      [ lit "/* Advanced Font Rendering Styles */";
        lit ".custom-typography {";
        lit "    font-family: serif;";
        lit "    font-size: 18px;";
        lit "    font-weight: 400;";
        lit "    letter-spacing: 0px;";
        lit "    line-height: 1.4;";
        lit "    word-spacing: 0px;";
        lit "    text-align: left;";
        lit "    font-feature-settings: " ++ tagOn "kern" ++ lit ";";
        lit "    ";
        lit "    ";
        lit "}";
        [];
        lit "/* Responsive adjustments */";
        lit "@media (max-width: 768px) {";
        lit "    .custom-typography {";
        lit "        font-size: 16.2px;";
        lit "        line-height: 1.3299999999999998;";
        lit "    }";
        lit "}";
        [];
        lit "@media (max-width: 480px) {";
        lit "    .custom-typography {";
        lit "        font-size: 14.4px;";
        lit "        letter-spacing: 0px;";
        lit "    }";
        lit "}" ].
Proof. vm_compute. reflexivity. Qed.

(** ** Layout score *)

Section LayoutScore.

Lemma splitChar_go_length (sep : Z) (s cur : jsstring) :
  length (splitChar_go sep cur s) = S (count_occ Z.eq_dec s sep).
Proof.
  revert cur. induction s as [|c s IH]; intros cur; [reflexivity|].
  cbn [splitChar_go count_occ].
  destruct (Z.eqb_spec c sep) as [->|Hne].
  - destruct (Z.eq_dec sep sep); [|congruence]. cbn [length]. now rewrite IH.
  - destruct (Z.eq_dec c sep); [congruence|]. apply IH.
Qed.

(** [text.split('\n').length] is the number of newlines plus one, so the
    fall-back [|| 1] never applies. *)
Lemma split_newlines_length (text : jsstring) :
  orInt (Z.of_nat (length (splitChar 10 text))) 1
  = Z.max 1 (newlineCount text + 1).
Proof.
  unfold splitChar, newlineCount, orInt. rewrite splitChar_go_length.
  destruct (Z.eqb_spec (Z.of_nat (S (count_occ Z.eq_dec text 10))) 0); lia.
Qed.

Lemma hasCommonLigatures_unfold (text : jsstring) :
  hasCommonLigatures text
  = (includes text (lit "fi") || includes text (lit "fl")
     || includes text (lit "ff") || includes text (lit "ffi")
     || includes text (lit "ffl")).
Proof.
  unfold hasCommonLigatures. cbn [map existsb].
  now rewrite orb_false_r, !orb_assoc.
Qed.

Lemma layoutScore_eq (d : Document) (text : jsstring) (e : Engine) :
  layoutScore (calculateLayoutScore d text e)
  = layoutScoreSpec (jslength text) (newlineCount text)
      (parseFloat (lineHeight_value d)) (parseFloat (letterSpacing_value d))
      (activeFeatures e) text.
Proof.
  unfold calculateLayoutScore, layoutScoreSpec.
  cbn [set_layoutScore layoutScore].
  rewrite split_newlines_length, hasCommonLigatures_unfold.
  change (num "80") with (ofZ 80). change (num "2") with (ofZ 2).
  unfold Set_has.
  repeat match goal with
         | |- context [if ?b then _ else _] => destruct b
         end; reflexivity.
Qed.

End LayoutScore.


(** C9: the two penalties take at most 15 from 100, so the score is at
    least 85 and the lower clamp is never reached. *)
Theorem layoutScore_at_least_85 (d : Document) (text : jsstring) (e : Engine) :
  85 <= layoutScore (calculateLayoutScore d text e) <= 100
  /\ 85 <= layoutScore (updateRendering d e) <= 100.
Proof.
  assert (H : forall t, 85 <= layoutScore (calculateLayoutScore d t e) <= 100).
  { intros t. rewrite layoutScore_eq. unfold layoutScoreSpec. cbv zeta.
    repeat match goal with
           | |- context [if ?b then _ else _] => destruct b
           end; lia. }
  split; [apply H|].
  change (layoutScore (updateRendering d e))
    with (layoutScore (calculateLayoutScore d (renderedTextOf d) e)).
  apply H.
Qed.

(** ** Numerals *)

Section Numerals.

Lemma isDigit_range (c : Z) : isDigit c = true -> 48 <= c <= 57.
Proof.
  unfold isDigit. intros H. apply andb_true_iff in H as [H1 H2].
  apply Z.leb_le in H1, H2. lia.
Qed.

Lemma isDigit_not_space (c : Z) : isDigit c = true -> isWhiteSpace c = false.
Proof.
  intros H. apply isDigit_range in H. unfold isWhiteSpace.
  repeat match goal with
         | |- context [?a =? ?b] =>
             rewrite (proj2 (Z.eqb_neq a b)) by lia
         end.
  rewrite (proj2 (Z.leb_gt 8192 c)) by lia. reflexivity.
Qed.

Lemma readDigits_app (ds rest : jsstring) :
  forallb isDigit ds = true -> endsDigits rest ->
  readDigits (ds ++ rest) = (map (fun c => c - 48) ds, rest).
Proof.
  intros Hds Hrest. induction ds as [|c ds IH].
  - cbn [app map]. destruct rest as [|r rest]; [reflexivity|].
    cbn [readDigits]. destruct Hrest as [-> _]. reflexivity.
  - cbn [forallb] in Hds. apply andb_true_iff in Hds as [Hc Hds].
    cbn [app readDigits map]. rewrite Hc, (IH Hds). reflexivity.
Qed.

Lemma isHexPrefix_digits (ds rest : jsstring) :
  forallb isDigit ds = true -> endsDigits rest ->
  isHexPrefix (ds ++ rest) = false.
Proof.
  intros Hds Hrest. unfold isHexPrefix.
  destruct ds as [|c [|c' ds]]; cbn [app].
  - destruct rest as [|z [|x rest]]; try reflexivity.
    destruct Hrest as [Hz _].
    destruct (Z.eqb_spec z 48) as [->|]; [discriminate Hz | reflexivity].
  - destruct rest as [|x rest]; [reflexivity|].
    destruct Hrest as (_ & H1 & H2).
    rewrite (proj2 (Z.eqb_neq x 120)), (proj2 (Z.eqb_neq x 88)) by assumption.
    apply andb_false_r.
  - cbn [forallb] in Hds.
    apply andb_true_iff in Hds as [_ Hds].
    apply andb_true_iff in Hds as [Hc' _].
    apply isDigit_range in Hc'.
    rewrite (proj2 (Z.eqb_neq c' 120)), (proj2 (Z.eqb_neq c' 88)) by lia.
    apply andb_false_r.
Qed.

(** [parseInt] reads the digits up to the first other code unit. *)
Lemma parseIntUnsigned_digits (sign : bool) (ds rest : jsstring) :
  digitsOnly ds = true -> endsDigits rest ->
  parseIntUnsigned sign (ds ++ rest)
  = ofMagnitude sign (digitsValue 10 (map (fun c => c - 48) ds)).
Proof.
  intros Hds Hrest. unfold parseIntUnsigned.
  destruct ds as [|c ds]; [discriminate Hds|]. cbn [digitsOnly] in Hds.
  rewrite isHexPrefix_digits, readDigits_app by assumption.
  reflexivity.
Qed.



Lemma readSign_digit (c : Z) (s : jsstring) :
  isDigit c = true -> readSign (c :: s) = (false, c :: s).
Proof.
  intros H. apply isDigit_range in H. unfold readSign.
  now rewrite (proj2 (Z.eqb_neq c 45)), (proj2 (Z.eqb_neq c 43)) by lia.
Qed.

Lemma parseInt_digits (ds rest : jsstring) :
  digitsOnly ds = true -> endsDigits rest ->
  parseInt (ds ++ rest)
  = ofMagnitude false (digitsValue 10 (map (fun c => c - 48) ds)).
Proof.
  intros Hds Hrest. unfold parseInt.
  destruct ds as [|c ds']; [discriminate Hds|].
  assert (Hc : isDigit c = true).
  { cbn [digitsOnly forallb] in Hds. now apply andb_true_iff in Hds as [? _]. }
  cbn [app trimStart]. rewrite (isDigit_not_space c Hc), (readSign_digit c _ Hc).
  now rewrite <- (parseIntUnsigned_digits false (c :: ds') rest Hds Hrest).
Qed.



End Numerals.

(** ** The media queries *)

Section MediaQueries.

Lemma digitsValue_nonneg_acc (ds : list Z) (acc : Z) :
  Forall (fun v => 0 <= v) ds -> 0 <= acc ->
  0 <= fold_left (fun a v => a * 10 + v) ds acc.
Proof.
  intros H. revert acc. induction H as [|v ds Hv _ IH]; intros acc Hacc.
  - exact Hacc.
  - cbn [fold_left]. apply IH. lia.
Qed.

Lemma digitsValue_nonneg (ds : jsstring) :
  forallb isDigit ds = true ->
  0 <= digitsValue 10 (map (fun c => c - 48) ds).
Proof.
  intros H. unfold digitsValue. apply digitsValue_nonneg_acc; [|lia].
  apply List.Forall_forall. intros v Hv. apply in_map_iff in Hv as (c & <- & Hc).
  rewrite forallb_forall in H. specialize (H c Hc).
  apply isDigit_range in H. lia.
Qed.


End MediaQueries.



(** The media queries of that page: the spacing of -3 becomes 0. *)
Example media_queries_negative_spacing :
  mediaBlock "480px" (mobileDeclarations negativeSpacingControls)
  = join nl
      [ lit "@media (max-width: 480px) {";
        lit "    .custom-typography {";
        lit "        font-size: 14.4px;";
        lit "        letter-spacing: 0px;";
        lit "    }";
        lit "}" ].
Proof. vm_compute. reflexivity. Qed.



(** For 18.5 the rule says [18.5px]; the 768px query says [16.2px], that
    is [max(14, 18 * 0.9)], where the size itself would give
    [16.650000000000002px]; the 480px query says [14.4px]. *)
Example breakpoints_of_18_5 :
  parseInt (lit "18.5") = ofZ 18 /\
  basicDeclarations initialEngine fractionalSizeControls
  = [ ("font-family", lit "serif"); ("font-size", lit "18.5px");
      ("font-weight", lit "400"); ("letter-spacing", lit "0px");
      ("line-height", lit "1.4"); ("word-spacing", lit "0px");
      ("text-align", lit "left") ] /\
  tabletDeclarations fractionalSizeControls
  = [ ("font-size", lit "16.2px");
      ("line-height", lit "1.3299999999999998") ] /\
  mobileDeclarations fractionalSizeControls
  = [ ("font-size", lit "14.4px"); ("letter-spacing", lit "0px") ] /\
  numToString (Math_max (num "14") (mul (ofZ 18) (num "0.9"))) = lit "16.2" /\
  numToString (Math_max (num "14") (mul (parseFloat (lit "18.5")) (num "0.9")))
  = lit "16.650000000000002".
Proof. repeat split; vm_compute; reflexivity. Qed.

(** ** Line count *)

Section Lines.

Lemma iter_pos_invariant {A : Type} (P : A -> Prop) (f : A -> A) :
  (forall x, P x -> P (f x)) ->
  forall n x, P x -> P (SpecFloat.iter_pos f n x).
Proof.
  intros Hf. induction n as [n IH|n IH|]; intros x Hx; cbn [SpecFloat.iter_pos]; auto.
Qed.

Lemma shr_1_nonneg (mrs : shr_record) :
  0 <= shr_m mrs -> 0 <= shr_m (shr_1 mrs).
Proof.
  destruct mrs as [m r s]. cbn [shr_m]. intros H.
  destruct m as [|[p|p|]|p]; cbn; lia.
Qed.

Lemma shr_nonneg (mrs : shr_record) (e n : Z) :
  0 <= shr_m mrs -> 0 <= shr_m (fst (shr mrs e n)).
Proof.
  intros H. unfold shr. destruct n as [|p|p]; cbn [fst]; try exact H.
  apply (iter_pos_invariant (fun r => 0 <= shr_m r)); [|exact H].
  apply shr_1_nonneg.
Qed.

Lemma shr_fexp_nonneg (m e : Z) (l : location) :
  0 <= m -> 0 <= shr_m (fst (shr_fexp 53 1024 m e l)).
Proof.
  intros H. unfold shr_fexp. apply shr_nonneg.
  destruct l as [|[ | | ]]; exact H.
Qed.

Lemma round_nearest_even_nonneg (m : Z) (l : location) :
  0 <= m -> 0 <= round_nearest_even m l.
Proof.
  intros H. unfold round_nearest_even.
  destruct l as [|[ | | ]]; try destruct (Z.even m); lia.
Qed.

(** Rounding keeps the sign: a mantissa that is not negative rounds to a
    zero, a finite value or an infinity of the sign given. *)
Lemma binary_round_aux_sign (s : bool) (m e : Z) (l : location) :
  0 <= m ->
  match binary_round_aux 53 1024 s m e l with
  | S754_zero t | S754_finite t _ _ | S754_infinity t => t = s
  | S754_nan => False
  end.
Proof.
  intros H. unfold binary_round_aux.
  pose proof (shr_fexp_nonneg m e l H) as H1.
  destruct (shr_fexp 53 1024 m e l) as [mrs' e'] eqn:E1. cbn [fst] in H1.
  pose proof (shr_fexp_nonneg _ e' loc_Exact
                (round_nearest_even_nonneg _ (loc_of_shr_record mrs') H1)) as H2.
  destruct (shr_fexp 53 1024 (round_nearest_even (shr_m mrs')
              (loc_of_shr_record mrs')) e' loc_Exact) as [mrs'' e''] eqn:E2.
  cbn [fst] in H2.
  destruct (shr_m mrs'') as [|p|p]; [reflexivity| |lia].
  destruct (e'' <=? 1024 - 53); reflexivity.
Qed.

Lemma binary_round_aux_nonneg (m e : Z) (l : location) :
  0 <= m -> nonneg (binary_round_aux 53 1024 false m e l) = true.
Proof.
  intros H. pose proof (binary_round_aux_sign false m e l H) as Hs.
  destruct (binary_round_aux 53 1024 false m e l) as [t|t| |t p q];
    try contradiction; subst t; reflexivity.
Qed.

Lemma SFdiv_core_binary_nonneg (m1 e1 m2 e2 : Z) :
  0 < m1 -> 0 < m2 ->
  0 <= fst (fst (SFdiv_core_binary 53 1024 m1 e1 m2 e2)).
Proof.
  intros H1 H2. unfold SFdiv_core_binary.
  set (s := e1 - e2 - _).
  set (m' := match s with Z0 => m1 | Zpos _ => Z.shiftl m1 s | Zneg _ => 0 end).
  assert (Hm' : 0 <= m').
  { subst m'. destruct s; try lia. apply Z.shiftl_nonneg. lia. }
  pose proof (Z_div_mod m' m2 ltac:(lia)) as Hdm.
  destruct (Z.div_eucl m' m2) as [q r]. cbn [fst].
  destruct Hdm as [Heq Hr]. nia.
Qed.

Lemma roundQ_nonneg (p q : Z) :
  0 <= p -> 0 < q -> nonneg (roundQ false p q) = true.
Proof.
  intros Hp Hq. unfold roundQ.
  destruct (Z.eqb_spec p 0); [reflexivity|].
  pose proof (SFdiv_core_binary_nonneg p 0 q 0 ltac:(lia) Hq) as H.
  destruct (SFdiv_core_binary 53 1024 p 0 q 0) as [[mz ez] lz]. cbn [fst] in H.
  now apply binary_round_aux_nonneg.
Qed.


Lemma digits2_pos_bounds (p : positive) :
  2 ^ Zpos (digits2_pos p) <= 2 * Zpos p < 2 * 2 ^ Zpos (digits2_pos p).
Proof.
  induction p as [p IH|p IH|]; cbn [digits2_pos].
  - rewrite Pos2Z.inj_succ, Z.pow_succ_r by lia. lia.
  - rewrite Pos2Z.inj_succ, Z.pow_succ_r by lia. lia.
  - cbn. lia.
Qed.

Lemma digits2_pos_small (p : positive) :
  Zpos p < 2 ^ 53 -> Zpos (digits2_pos p) <= 53.
Proof.
  intros H. pose proof (digits2_pos_bounds p) as [Hlo _].
  destruct (Z.le_gt_cases (Zpos (digits2_pos p)) 53) as [|Hgt]; [assumption|].
  assert (2 ^ 54 <= 2 ^ Zpos (digits2_pos p))
    by (apply Z.pow_le_mono_r; lia).
  change (2 ^ 54) with (2 * 2 ^ 53) in *. lia.
Qed.

(** The Number of an integer that is not negative is not negative, and
    is finite below [2 ^ 53]. *)
Lemma ofZ_nonneg (z : Z) : 0 <= z -> nonneg (ofZ z) = true.
Proof.
  intros H. destruct z as [|p|p]; [reflexivity| |lia].
  unfold ofZ, ofPos. destruct (Zpos (digits2_pos p) <=? 53); [reflexivity|].
  apply roundQ_nonneg; lia.
Qed.







Lemma orElse_truthy (x : number) : truthy (orElse x (ofZ 1)) = true.
Proof. unfold orElse. destruct (truthy x) eqn:E; [exact E | reflexivity]. Qed.

End Lines.

Section AverageWidth.












End AverageWidth.




(** The line estimate of the sample page: 600 pixels hold 55 characters
    of 10.8 pixels, and 250 characters take 5 lines. *)
Example lines_sample :
  charsPerLine sampleDocument = ofZ 55 /\
  lines (calculateTextMetrics sampleDocument (repeat 97 250)) = ofZ 5 /\
  lines (calculateTextMetrics sampleDocument []) = ofZ 1.
Proof. repeat split; vm_compute; reflexivity. Qed.

(** Every font size the size control offers (12 to 72) gives a positive
    finite average character width. *)
Example avgCharWidth_of_control_range :
  forallb
    (fun n => finitePositive (mul (parseInt (decDigits n)) (num "0.6")))
    (map Z.of_nat (seq 12 61))
  = true.
Proof. vm_compute. reflexivity. Qed.

(** * Further properties

    What the code shows beyond the statements above: the handlers of the
    controls, the metrics at the edges of their inputs, the text drawn
    on the canvas, the animated counters and the page around the
    preview. *)

(** ** The feature set under the handlers *)

Section FeatureSet.

Lemma tagName_inj (t u : FeatureTag) : tagName t = tagName u -> t = u.
Proof. destruct t, u; intros H; try reflexivity; vm_compute in H; discriminate H. Qed.

Lemma featureCheckboxes_tags (feature : jsstring) :
  In feature featureCheckboxes -> exists t, feature = tagName t.
Proof.
  intros H. unfold featureCheckboxes in H. cbn [map In] in H.
  destruct H as [H|[H|[H|[H|[H|[H|[]]]]]]]; subst feature.
  - now exists kerning.
  - now exists ligatures.
  - now exists smallCaps.
  - now exists oldstyleNums.
  - now exists tabularNums.
  - now exists fractions.
Qed.

Lemma Set_delete_notin (s : list jsstring) (x : jsstring) :
  x ∉ s -> Set_delete s x = s.
Proof.
  unfold Set_delete. induction s as [|y s IH]; intros H; [reflexivity|].
  apply not_elem_of_cons in H as [Hne Hs].
  rewrite filter_cons_True by congruence. now rewrite IH.
Qed.

Lemma Set_delete_app (s t : list jsstring) (x : jsstring) :
  Set_delete (s ++ t) x = Set_delete s x ++ Set_delete t x.
Proof. unfold Set_delete. apply filter_app. Qed.

Lemma Set_delete_absent (s : list jsstring) (x : jsstring) :
  x ∉ Set_delete s x.
Proof. unfold Set_delete. intros H. apply list_elem_of_filter in H as [H _]. now apply H. Qed.

Lemma Set_add_present (s : list jsstring) (x : jsstring) : x ∈ Set_add s x.
Proof.
  unfold Set_add, Set_has. case_bool_decide as H; [exact H|].
  apply elem_of_app. right. apply list_elem_of_singleton. reflexivity.
Qed.

Lemma Set_add_NoDup (s : list jsstring) (x : jsstring) :
  NoDup s -> NoDup (Set_add s x).
Proof.
  intros H. unfold Set_add, Set_has. case_bool_decide as Hx; [exact H|].
  apply NoDup_app. split; [exact H|]. split.
  - intros y Hy Hy'. apply list_elem_of_singleton in Hy'. now subst y.
  - apply NoDup_singleton.
Qed.

Lemma Set_delete_NoDup (s : list jsstring) (x : jsstring) :
  NoDup s -> NoDup (Set_delete s x).
Proof. intros H. unfold Set_delete. now apply NoDup_filter. Qed.

Lemma Set_add_tags (tags : list FeatureTag) (t : FeatureTag) :
  NoDup tags ->
  exists tags', NoDup tags' /\
    Set_add (map tagName tags) (tagName t) = map tagName tags'.
Proof.
  intros H. unfold Set_add, Set_has. case_bool_decide as Hx.
  - now exists tags.
  - exists (tags ++ [t]). split.
    + apply NoDup_app. split; [exact H|]. split; [|apply NoDup_singleton].
      intros u Hu Hu'. apply list_elem_of_singleton in Hu'. subst u.
      apply Hx. apply list_elem_of_fmap. now exists t.
    + now rewrite map_app.
Qed.

Lemma Set_delete_tags (tags : list FeatureTag) (t : FeatureTag) :
  NoDup tags ->
  exists tags', NoDup tags' /\
    Set_delete (map tagName tags) (tagName t) = map tagName tags'.
Proof.
  intros H. exists (filter (fun u => tagName u <> tagName t) tags). split.
  - now apply NoDup_filter.
  - unfold Set_delete. clear H. induction tags as [|u tags IH]; [reflexivity|].
    cbn [map]. destruct (decide (tagName u = tagName t)) as [E|E].
    + rewrite !filter_cons_False by (intros HH; now apply HH). exact IH.
    + rewrite !filter_cons_True by exact E. cbn [map]. now rewrite IH.
Qed.

Lemma updateRendering_activeFeatures (d : Document) (e : Engine) :
  activeFeatures (updateRendering d e) = activeFeatures e.
Proof. reflexivity. Qed.

Lemma updateRendering_fontFeatureSettings (d : Document) (e : Engine) :
  renderedText_style (updateRendering d e) !! "fontFeatureSettings"
  = Some (orString (fontFeaturesOf (activeFeatures e)) (lit "normal")).
Proof.
  rewrite updateRendering_style. cbv zeta.
  destruct (hyphenation e), (layoutOptimization e); style_lookup; reflexivity.
Qed.

Lemma tags_settings (tags : list FeatureTag) :
  orString (fontFeaturesOf (map tagName tags)) (lit "normal")
  = fontFeatureSettingsSpec tags.
Proof.
  rewrite fontFeaturesOf_tags.
  destruct tags as [|t tags]; [reflexivity|].
  unfold fontFeatureSettingsSpec. destruct tags; destruct t; reflexivity.
Qed.

Lemma NoDup_tags_length (tags : list FeatureTag) :
  NoDup tags -> (length tags <= 6)%nat.
Proof.
  intros H.
  change 6%nat with
    (length [kerning; ligatures; smallCaps; oldstyleNums; tabularNums; fractions]).
  apply NoDup_incl_length.
  - apply NoDup_ListNoDup. exact H.
  - intros t _. destruct t; cbn; tauto.
Qed.

(** What holds of the feature set in every state: it lists distinct tags
    of the six checkboxes. *)
Lemma reachable_tags (d : Document) (e : Engine) :
  reachable d e ->
  exists tags, NoDup tags /\ activeFeatures e = map tagName tags.
Proof.
  induction 1 as [d|d e f checked _ IH Hf|d e a _ IH|d e b _ IH|d e b _ IH
                 |d d' e _ IH].
  - exists [kerning]. split; [apply NoDup_singleton|reflexivity].
  - destruct IH as (tags & Hnd & Ht).
    apply featureCheckboxes_tags in Hf as (t & ->).
    unfold onFeatureChange. rewrite updateRendering_activeFeatures.
    unfold toggleFeature. cbn [set_activeFeatures activeFeatures]. rewrite Ht.
    destruct checked; [now apply Set_add_tags | now apply Set_delete_tags].
  - exact IH.
  - exact IH.
  - exact IH.
  - exact IH.
Qed.

Lemma reachable_rendered (d : Document) (e : Engine) :
  reachable d e -> exists e0, e = updateRendering d e0.
Proof.
  destruct 1; eexists; try reflexivity.
Qed.

End FeatureSet.

(** X1: in every state the page can bring about (the constructor's
    rendering, then any sequence of checkbox changes, alignment clicks,
    hyphenation and layout changes and edits of the page) the active
    features are distinct tags of the six checkboxes, at most six of
    them; the live [font-feature-settings] is the table value of these
    tags, [normal] when there is none, and the exported rule has its
    [font-feature-settings] declaration with that value exactly when a
    tag is active.  No other key can reach the feature table from the
    page. *)
Theorem reachable_feature_settings (d : Document) (e : Engine) :
  reachable d e ->
  exists tags : list FeatureTag,
    NoDup tags /\ (length tags <= 6)%nat /\
    activeFeatures e = map tagName tags /\
    renderedText_style e !! "fontFeatureSettings"
    = Some (fontFeatureSettingsSpec tags) /\
    featureDeclarations (fontFeaturesOf (activeFeatures e))
    = match tags with
      | [] => []
      | _ => [("font-feature-settings", fontFeatureSettingsSpec tags)]
      end.
Proof.
  intros H. destruct (reachable_tags d e H) as (tags & Hnd & Ht).
  exists tags. split; [exact Hnd|]. split; [now apply NoDup_tags_length|].
  split; [exact Ht|]. split.
  - destruct (reachable_rendered d e H) as (e0 & ->).
    rewrite updateRendering_fontFeatureSettings.
    rewrite updateRendering_activeFeatures in Ht. rewrite Ht.
    now rewrite tags_settings.
  - rewrite Ht, fontFeaturesOf_tags.
    destruct tags as [|t tags]; [reflexivity|].
    unfold fontFeatureSettingsSpec.
    assert (Hne : join (lit ", ") (map featureTable (t :: tags)) <> []).
    { cbn [map join]. destruct tags; destruct t; discriminate. }
    unfold featureDeclarations.
    destruct (join (lit ", ") (map featureTable (t :: tags))); [congruence|reflexivity].
Qed.

Lemma reachable_feature_settings_witness :
  exists tags : list FeatureTag,
    NoDup tags /\ (length tags <= 6)%nat /\
    activeFeatures
      (onFeatureChange sampleDocument (lit "kerning") false
         (onFeatureChange sampleDocument (lit "fractions") true
            (updateRendering sampleDocument initialEngine)))
    = map tagName tags /\
    renderedText_style
      (onFeatureChange sampleDocument (lit "kerning") false
         (onFeatureChange sampleDocument (lit "fractions") true
            (updateRendering sampleDocument initialEngine)))
      !! "fontFeatureSettings"
    = Some (fontFeatureSettingsSpec tags) /\
    featureDeclarations
      (fontFeaturesOf
         (activeFeatures
            (onFeatureChange sampleDocument (lit "kerning") false
               (onFeatureChange sampleDocument (lit "fractions") true
                  (updateRendering sampleDocument initialEngine)))))
    = match tags with
      | [] => []
      | _ => [("font-feature-settings", fontFeatureSettingsSpec tags)]
      end.
Proof.
  apply (reachable_feature_settings sampleDocument).
  apply reach_feature; [|cbn; tauto].
  apply reach_feature; [|cbn; tauto].
  apply reach_constructor.
Defined.

(** X2: for a feature that is not active, checking its box and then
    unchecking it gives back the feature set as it was, order included;
    after the check the feature is in the set, and checking a second
    time changes nothing. *)
Theorem uncheck_after_check (d : Document) (e : Engine) (feature : jsstring) :
  Set_has (activeFeatures e) feature = false ->
  activeFeatures
    (onFeatureChange d feature false (onFeatureChange d feature true e))
  = activeFeatures e
  /\ Set_has (activeFeatures (onFeatureChange d feature true e)) feature = true
  /\ activeFeatures
       (onFeatureChange d feature true (onFeatureChange d feature true e))
     = activeFeatures (onFeatureChange d feature true e).
Proof.
  intros H. unfold Set_has in H. apply bool_decide_eq_false in H.
  unfold onFeatureChange. rewrite !updateRendering_activeFeatures.
  unfold toggleFeature. cbn [set_activeFeatures activeFeatures].
  rewrite !updateRendering_activeFeatures. cbn [set_activeFeatures activeFeatures].
  split; [|split].
  - unfold Set_add at 1. unfold Set_has. rewrite bool_decide_eq_false_2 by exact H.
    rewrite Set_delete_app, Set_delete_notin by exact H.
    unfold Set_delete. rewrite filter_cons_False by (intros HH; now apply HH).
    rewrite filter_nil. apply app_nil_r.
  - unfold Set_has. apply bool_decide_eq_true. apply Set_add_present.
  - unfold Set_add at 1. unfold Set_has.
    rewrite bool_decide_eq_true_2 by apply Set_add_present. reflexivity.
Qed.

Lemma uncheck_after_check_witness :
  activeFeatures
    (onFeatureChange sampleDocument (lit "ligatures") false
       (onFeatureChange sampleDocument (lit "ligatures") true initialEngine))
  = activeFeatures initialEngine
  /\ Set_has (activeFeatures
       (onFeatureChange sampleDocument (lit "ligatures") true initialEngine))
       (lit "ligatures") = true
  /\ activeFeatures
       (onFeatureChange sampleDocument (lit "ligatures") true
          (onFeatureChange sampleDocument (lit "ligatures") true initialEngine))
     = activeFeatures
         (onFeatureChange sampleDocument (lit "ligatures") true initialEngine).
Proof.
  apply (uncheck_after_check sampleDocument initialEngine (lit "ligatures")).
  vm_compute. reflexivity.
Defined.

(** ** Rendering again *)

Section Assignments.

Variable k : string.

Lemma lookup_assignAll (kvs : list (string * jsstring))
  (m : gmap string jsstring) :
  assignAll kvs m !! k = lastAssigned k kvs (m !! k).
Proof.
  revert m. induction kvs as [|kv kvs IH]; intros m; [reflexivity|].
  unfold assignAll, lastAssigned. cbn [fold_left].
  fold (assignAll kvs (<[kv.1:=kv.2]> m)). rewrite IH.
  rewrite lookup_insert. unfold lastAssigned.
  destruct (decide (kv.1 = k)); reflexivity.
Qed.

Lemma lastAssigned_acc (kvs : list (string * jsstring))
  (acc : option jsstring) :
  lastAssigned k kvs acc
  = match lastAssigned k kvs None with
    | Some v => Some v
    | None => acc
    end.
Proof.
  revert acc. induction kvs as [|kv kvs IH]; intros acc; [reflexivity|].
  unfold lastAssigned. cbn [fold_left].
  fold (lastAssigned k kvs (if decide (kv.1 = k) then Some kv.2 else acc)).
  fold (lastAssigned k kvs (if decide (kv.1 = k) then Some kv.2 else None)).
  rewrite IH. rewrite (IH (if decide (kv.1 = k) then Some kv.2 else None)).
  destruct (lastAssigned k kvs None); [reflexivity|].
  destruct (decide (kv.1 = k)); reflexivity.
Qed.

Lemma lastAssigned_app (kvs1 kvs2 : list (string * jsstring))
  (acc : option jsstring) :
  lastAssigned k (kvs1 ++ kvs2) acc
  = lastAssigned k kvs2 (lastAssigned k kvs1 acc).
Proof. unfold lastAssigned. apply fold_left_app. Qed.

Lemma lastAssigned_cons (kv : string * jsstring)
  (kvs : list (string * jsstring)) (acc : option jsstring) :
  lastAssigned k (kv :: kvs) acc
  = lastAssigned k kvs (if decide (fst kv = k) then Some (snd kv) else acc).
Proof. reflexivity. Qed.

Lemma lastAssigned_twice (kvs : list (string * jsstring))
  (acc : option jsstring) :
  lastAssigned k kvs (lastAssigned k kvs acc) = lastAssigned k kvs acc.
Proof.
  rewrite (lastAssigned_acc kvs (lastAssigned k kvs acc)).
  rewrite (lastAssigned_acc kvs acc).
  destruct (lastAssigned k kvs None); reflexivity.
Qed.

Lemma lastAssigned_other (kvs : list (string * jsstring))
  (acc : option jsstring) :
  ~ In k (map fst kvs) -> lastAssigned k kvs acc = acc.
Proof.
  revert acc. induction kvs as [|kv kvs IH]; intros acc H; [reflexivity|].
  unfold lastAssigned. cbn [fold_left]. cbn [map In] in H.
  rewrite decide_False by tauto. apply IH. tauto.
Qed.

End Assignments.


(** Assigning the same list again with another value for one property,
    which nothing later in the list names, changes that property only. *)
Lemma assignAll_again (kvs1 kvs2 : list (string * jsstring)) (t : string)
  (v v0 : jsstring) (m : gmap string jsstring) :
  ~ In t (map fst kvs2) ->
  assignAll (kvs1 ++ (t, v) :: kvs2) (assignAll (kvs1 ++ (t, v0) :: kvs2) m)
  = <[t := v]> (assignAll (kvs1 ++ (t, v0) :: kvs2) m).
Proof.
  intros Ht. apply map_eq. intros k.
  rewrite lookup_insert, !lookup_assignAll.
  destruct (decide (t = k)) as [<-|Hk].
  - rewrite lastAssigned_app, lastAssigned_cons. cbn [fst snd].
    rewrite decide_True by reflexivity. now apply lastAssigned_other.
  - assert (E : forall v' acc,
              lastAssigned k (kvs1 ++ (t, v') :: kvs2) acc
              = lastAssigned k (kvs1 ++ kvs2) acc).
    { intros v' acc. rewrite !lastAssigned_app. rewrite lastAssigned_cons.
      cbn [fst snd]. now rewrite decide_False by exact Hk. }
    rewrite !E. apply lastAssigned_twice.
Qed.

Lemma updateRendering_assignments (d : Document) (e : Engine) :
  renderedText_style (updateRendering d e)
  = assignAll (renderedAssignments d e) (renderedText_style e).
Proof.
  rewrite updateRendering_style. cbv zeta.
  unfold renderedAssignments, assignmentsAfterAlign, assignmentsBeforeAlign.
  destruct (hyphenation e), (layoutOptimization e); reflexivity.
Qed.



(** X4: on a rendered preview [setActiveAlignment] changes the
    alignment and nothing else: the new style is the old one with
    [textAlign] set to the alignment, the layout score and the text stay,
    and the exported rule declares [text-align] with the new value. *)
Theorem setActiveAlignment_frame (d : Document) (e : Engine)
  (alignment : jsstring) :
  let e1 := updateRendering d e in
  let e2 := setActiveAlignment d alignment e1 in
  currentAlignment e2 = alignment
  /\ renderedText_style e2 = <["textAlign" := alignment]> (renderedText_style e1)
  /\ layoutScore e2 = layoutScore e1
  /\ renderedText_textContent e2 = renderedText_textContent e1
  /\ In ("text-align", alignment)
       (ruleDeclarations e2 (getControlValues d) (activeFeatures e2)).
Proof.
  cbv zeta. split; [reflexivity|]. split; [|split; [reflexivity|split; [reflexivity|]]].
  - unfold setActiveAlignment.
    rewrite (updateRendering_assignments d
               (set_currentAlignment (updateRendering d e) alignment)).
    change (renderedText_style (set_currentAlignment (updateRendering d e) alignment))
      with (renderedText_style (updateRendering d e)).
    change (renderedAssignments d
              (set_currentAlignment (updateRendering d e) alignment))
      with (assignmentsBeforeAlign d
            ++ ("textAlign", alignment) :: assignmentsAfterAlign e).
    rewrite (updateRendering_assignments d e). unfold renderedAssignments.
    apply assignAll_again.
    unfold assignmentsAfterAlign.
    destruct (hyphenation e), (layoutOptimization e); cbn [app map fst In];
      intuition discriminate.
  - unfold ruleDeclarations, basicDeclarations. apply in_or_app. left.
    cbn [In]. do 6 right. left. reflexivity.
Qed.


(** ** The metrics at the edges *)

Section MetricsEdges.

Lemma trimStart_cases (s : jsstring) :
  trimStart s = [] \/
  exists c r, trimStart s = c :: r /\ isWhiteSpace c = false.
Proof.
  induction s as [|c s IH]; [now left|].
  cbn [trimStart]. destruct (isWhiteSpace c) eqn:E; [exact IH|].
  right. now exists c, s.
Qed.

Lemma trimStart_length (s : jsstring) :
  (length (trimStart s) <= length s)%nat.
Proof.
  induction s as [|c s IH]; [reflexivity|].
  cbn [trimStart]. destruct (isWhiteSpace c); cbn [length]; lia.
Qed.

Lemma trimStart_nil_blank (s : jsstring) : trimStart s = [] -> blank s.
Proof.
  induction s as [|c s IH]; intros H; [constructor|].
  cbn [trimStart] in H. destruct (isWhiteSpace c) eqn:E; [|discriminate H].
  constructor; [exact E | now apply IH].
Qed.

Lemma trim_length (s : jsstring) : (length (trim s) <= length s)%nat.
Proof.
  unfold trim, trimEnd. rewrite length_rev.
  etransitivity; [apply trimStart_length|]. rewrite length_rev.
  apply trimStart_length.
Qed.

Lemma trim_cases (s : jsstring) :
  trim s = [] \/ exists p c, trim s = p ++ [c] /\ isWhiteSpace c = false.
Proof.
  unfold trim, trimEnd.
  destruct (trimStart_cases (rev (trimStart s))) as [->|(c & r & -> & Hc)].
  - now left.
  - right. exists (rev r), c. split; [reflexivity|exact Hc].
Qed.

Lemma trim_nil_blank (s : jsstring) : trim s = [] -> blank s.
Proof.
  unfold trim, trimEnd. intros H.
  assert (H' : trimStart (rev (trimStart s)) = []).
  { rewrite <- (rev_involutive (trimStart (rev (trimStart s)))), H. reflexivity. }
  apply trimStart_nil_blank in H'. apply blank_rev in H'.
  rewrite rev_involutive in H'.
  destruct (trimStart_cases s) as [E|(c & r & E & Hc)].
  - now apply trimStart_nil_blank.
  - rewrite E in H'. inversion H' as [|? ? Hc' _]. congruence.
Qed.

(** The white-space code units of a string. *)
Lemma splitWS_go_length (sep : bool) (cur s : jsstring) :
  (1 <= length (splitWS_go sep cur s)
   <= 1 + length (List.filter isWhiteSpace s))%nat.
Proof.
  revert sep cur. induction s as [|c s IH]; intros sep cur.
  - cbn. lia.
  - cbn [splitWS_go List.filter]. destruct (isWhiteSpace c).
    + destruct sep.
      * specialize (IH true cur). cbn [length]. lia.
      * specialize (IH true []). cbn [length]. lia.
    + specialize (IH false (c :: cur)). lia.
Qed.

Lemma filter_whiteSpace_last (p : jsstring) (c : Z) :
  isWhiteSpace c = false ->
  (length (List.filter isWhiteSpace (p ++ [c])) <= length p)%nat.
Proof.
  intros Hc. rewrite List.filter_app. cbn [List.filter]. rewrite Hc.
  rewrite app_nil_r. apply List.filter_length_le.
Qed.

End MetricsEdges.

(** X6: the word count lies between 0 and the character count, and it
    is 0 exactly for a text of white space only (the empty text
    included). *)
Theorem words_at_most_characters (d : Document) (text : jsstring) :
  let m := calculateTextMetrics d text in
  0 <= words m <= characters m /\ (words m = 0 <-> blank text).
Proof.
  cbv zeta. unfold calculateTextMetrics. cbn [words characters].
  unfold jslength. case_bool_decide as Ht.
  - split; [lia|]. split; [intros _; now apply trim_nil_blank|reflexivity].
  - pose proof (splitWS_go_length false [] (trim text)) as Hlen.
    fold (splitWS (trim text)) in Hlen. split.
    + destruct (trim_cases text) as [E|(p & c & E & Hc)]; [congruence|].
      pose proof (trim_length text) as Htl. rewrite E in Hlen, Htl.
      pose proof (filter_whiteSpace_last p c Hc) as Hf.
      rewrite E. rewrite length_app in Htl. cbn [length] in Htl. lia.
    + split; [lia|]. intros Hb. contradiction Ht. now apply trim_blank.
Qed.

(** X7: on the empty text [calculateTextMetrics] gives 0 characters,
    0 words and 1 line, whatever the font size and the width of the
    preview are. *)
Theorem empty_text_metrics (d : Document) :
  calculateTextMetrics d []
  = {| characters := 0; words := 0; lines := ofZ 1 |}.
Proof.
  unfold calculateTextMetrics. f_equal.
  change (jslength []) with 0. change (ofZ 0) with (S754_zero false).
  pose proof (orElse_truthy
                (floor (div (ofZ (renderedText_offsetWidth d)) (avgCharWidth d))))
    as Ht.
  fold (charsPerLine d) in Ht.
  destruct (charsPerLine d) as [s|s| |s m e]; try discriminate Ht;
    destruct s; reflexivity.
Qed.

Lemma ofZ_small_finite (w : Z) :
  0 < w < 2 ^ 53 -> exists m e, ofZ w = S754_finite false m e.
Proof.
  intros Hw. destruct w as [|p|p]; try lia.
  cbn [ofZ]. unfold ofPos.
  pose proof (digits2_pos_small p ltac:(lia)) as Hd.
  apply Z.leb_le in Hd. rewrite Hd. unfold ofSmallPos. eauto.
Qed.

(** X8: with a font size of zero (digits of value 0) and a preview of
    positive width the estimated character width is 0, the division by
    it gives [Infinity] characters per line rather than an error, and
    every text, however long, is counted as 1 line. *)
Theorem zero_font_size_one_line (d : Document) (text : jsstring) :
  digitsOnly (fontSize_value d) = true ->
  numeralValue (fontSize_value d) = 0 ->
  0 < renderedText_offsetWidth d < 2 ^ 53 ->
  avgCharWidth d = S754_zero false
  /\ charsPerLine d = S754_infinity false
  /\ lines (calculateTextMetrics d text) = ofZ 1.
Proof.
  intros Hds Hv Hw.
  assert (Ha : avgCharWidth d = S754_zero false).
  { unfold avgCharWidth.
    rewrite <- (app_nil_r (fontSize_value d)).
    rewrite (parseInt_digits (fontSize_value d) [] Hds I).
    fold (numeralValue (fontSize_value d)). rewrite Hv.
    vm_compute. reflexivity. }
  assert (Hc : charsPerLine d = S754_infinity false).
  { unfold charsPerLine. rewrite Ha.
    destruct (ofZ_small_finite _ Hw) as (m & e & ->). reflexivity. }
  split; [exact Ha|]. split; [exact Hc|].
  unfold calculateTextMetrics. cbn [lines]. rewrite Hc.
  pose proof (ofZ_nonneg (jslength text) ltac:(unfold jslength; lia)) as Hn.
  destruct (ofZ (jslength text)) as [s|s| |s m e]; try discriminate Hn;
    destruct s; try discriminate Hn; reflexivity.
Qed.

Lemma zero_font_size_one_line_witness :
  avgCharWidth zeroSizeDocument = S754_zero false
  /\ charsPerLine zeroSizeDocument = S754_infinity false
  /\ lines (calculateTextMetrics zeroSizeDocument (repeat 97 250)) = ofZ 1.
Proof.
  apply zero_font_size_one_line.
  - reflexivity.
  - reflexivity.
  - cbn. lia.
Defined.

(** ** The layout score over its range *)

Section ScoreRange.

Lemma startsWith_app (p q s : jsstring) :
  startsWith (p ++ q) s = true -> startsWith p s = true.
Proof.
  revert s. induction p as [|a p IH]; intros s H; [reflexivity|].
  destruct s as [|b s]; [discriminate H|].
  cbn [app startsWith] in *. apply andb_true_iff in H as [H1 H2].
  rewrite H1. now apply IH.
Qed.

Lemma includes_app (s p q : jsstring) :
  includes s (p ++ q) = true -> includes s p = true.
Proof.
  induction s as [|c s IH]; intros H.
  - cbn [includes] in *. rewrite orb_false_r in *. now apply startsWith_app in H.
  - cbn [includes] in *. apply orb_true_iff in H as [H|H].
    + apply startsWith_app in H. now rewrite H.
    + rewrite (IH H). apply orb_true_r.
Qed.

Lemma layoutScore_unclamped (chars newlines : Z) (lh ls : number)
  (features : list jsstring) (text : jsstring) :
  exists P B : Z,
    (P = 0 \/ P = 5 \/ P = 10 \/ P = 15) /\ (B = 0 \/ B = 5 \/ B = 10) /\
    layoutScoreSpec chars newlines lh ls features text
    = Z.min 100 (100 - P + B) /\
    (P = 0 <->
     ltb (ofZ 80) (div (ofZ chars) (ofZ (Z.max 1 (newlines + 1)))) = false
     /\ ltb (ofZ 2) (Math_abs ls) = false).
Proof.
  unfold layoutScoreSpec. cbv zeta.
  set (long := ltb (ofZ 80) _).
  set (good := leb (num "1.4") lh && leb lh (num "1.6")).
  set (lig := bool_decide _ && _).
  set (wide := ltb (ofZ 2) (Math_abs ls)).
  exists ((if long then 10 else 0) + (if wide then 5 else 0)),
         ((if good then 5 else 0) + (if lig then 5 else 0)).
  destruct long, good, lig, wide; cbn; repeat split; intros; try lia;
    try tauto; try discriminate; try (destruct H; discriminate).
Qed.

End ScoreRange.

(** X9: [hasCommonLigatures] holds exactly of the texts that contain
    [fi], [fl] or [ff]: the entries [ffi] and [ffl] of its list never
    decide, since a text with one of them contains [ff]. *)
Theorem hasCommonLigatures_three (text : jsstring) :
  hasCommonLigatures text
  = (includes text (lit "fi") || includes text (lit "fl")
     || includes text (lit "ff")).
Proof.
  rewrite hasCommonLigatures_unfold.
  pose proof (includes_app text (lit "ff") (lit "i")) as Hi.
  pose proof (includes_app text (lit "ff") (lit "l")) as Hl.
  change (lit "ff" ++ lit "i") with (lit "ffi") in Hi.
  change (lit "ff" ++ lit "l") with (lit "ffl") in Hl.
  destruct (includes text (lit "ffi")), (includes text (lit "ffl"));
    try rewrite (Hi eq_refl); try rewrite (Hl eq_refl);
    rewrite ?orb_true_r, ?orb_false_r; reflexivity.
Qed.

(** X10: the layout score is one of 85, 90, 95 and 100, and it is 100
    unless a penalty applies (an average line longer than 80 or a letter
    spacing beyond 2 pixels either way): without a penalty the two
    bonuses do not show. *)
Theorem layoutScore_values (d : Document) (text : jsstring) (e : Engine) :
  let s := layoutScore (calculateLayoutScore d text e) in
  In s [85; 90; 95; 100]
  /\ (s = 100
      \/ ltb (num "80")
           (div (ofZ (jslength text))
                (ofZ (orInt (Z.of_nat (length (splitChar 10 text))) 1))) = true
      \/ ltb (num "2") (Math_abs (parseFloat (letterSpacing_value d))) = true).
Proof.
  cbv zeta. rewrite layoutScore_eq, split_newlines_length.
  destruct (layoutScore_unclamped (jslength text) (newlineCount text)
              (parseFloat (lineHeight_value d))
              (parseFloat (letterSpacing_value d)) (activeFeatures e) text)
    as (P & B & HP & HB & -> & Hpen).
  change (num "80") with (ofZ 80). change (num "2") with (ofZ 2).
  split.
  - cbn [In]. lia.
  - destruct (ltb (ofZ 80) _) eqn:E1; [now right; left|].
    destruct (ltb (ofZ 2) _) eqn:E2; [now right; right|].
    left. assert (P = 0) by (apply Hpen; split; reflexivity). lia.
Qed.

(** X11: a page whose line-height input is empty renders exactly as
    the page with 1.4 in it (same inline style, line height 1.4, same
    exported style sheet), yet it is scored without the line-height
    bonus: the score of the page with 1.4 is the score of the page with
    the empty input plus 5, capped at 100.  The style takes the fall-back
    of [getControlValues], the score reads the raw input. *)
Theorem empty_lineHeight_input (d : Document) (e : Engine) :
  lineHeight_value d = [] ->
  let d14 := set_lineHeight_value d (lit "1.4") in
  renderedText_style (updateRendering d e)
  = renderedText_style (updateRendering d14 e)
  /\ renderedText_style (updateRendering d e) !! "lineHeight"
     = Some (lit "1.4")
  /\ exportCSS d e = exportCSS d14 e
  /\ layoutScore (updateRendering d14 e)
     = Z.min 100 (layoutScore (updateRendering d e) + 5).
Proof.
  intros Hlh. cbv zeta.
  assert (Hc : getControlValues (set_lineHeight_value d (lit "1.4"))
               = getControlValues d).
  { unfold getControlValues. cbn [set_lineHeight_value fontSelect_value
      fontSize_value fontWeight_value letterSpacing_value lineHeight_value
      wordSpacing_value]. rewrite Hlh. reflexivity. }
  split; [|split; [|split]].
  - rewrite !updateRendering_style. rewrite Hc. reflexivity.
  - rewrite updateRendering_style. cbv zeta.
    unfold getControlValues. cbn [lineHeight]. rewrite Hlh. cbn [orString].
    destruct (hyphenation e), (layoutOptimization e); style_lookup; reflexivity.
  - unfold exportCSS. rewrite Hc. reflexivity.
  - change (layoutScore (updateRendering (set_lineHeight_value d (lit "1.4")) e))
      with (layoutScore
              (calculateLayoutScore (set_lineHeight_value d (lit "1.4"))
                 (renderedTextOf d)
                 (set_style e (renderedText_style
                    (updateRendering (set_lineHeight_value d (lit "1.4")) e))))).
    change (layoutScore (updateRendering d e))
      with (layoutScore
              (calculateLayoutScore d (renderedTextOf d)
                 (set_style e (renderedText_style (updateRendering d e))))).
    rewrite !layoutScore_eq.
    cbn [set_lineHeight_value lineHeight_value letterSpacing_value
         set_style activeFeatures].
    rewrite Hlh. unfold layoutScoreSpec. cbv zeta.
    replace (leb (num "1.4") (parseFloat (lit "1.4"))
             && leb (parseFloat (lit "1.4")) (num "1.6")) with true
      by (vm_compute; reflexivity).
    replace (leb (num "1.4") (parseFloat [])
             && leb (parseFloat []) (num "1.6")) with false
      by (vm_compute; reflexivity).
    destruct (ltb (ofZ 80) _), (bool_decide _ && _), (ltb (ofZ 2) _);
      reflexivity.
Qed.

Lemma empty_lineHeight_input_witness :
  renderedText_style (updateRendering noLineHeightDocument initialEngine)
  = renderedText_style
      (updateRendering (set_lineHeight_value noLineHeightDocument (lit "1.4"))
         initialEngine)
  /\ renderedText_style (updateRendering noLineHeightDocument initialEngine)
       !! "lineHeight" = Some (lit "1.4")
  /\ exportCSS noLineHeightDocument initialEngine
     = exportCSS (set_lineHeight_value noLineHeightDocument (lit "1.4"))
         initialEngine
  /\ layoutScore
       (updateRendering (set_lineHeight_value noLineHeightDocument (lit "1.4"))
          initialEngine)
     = Z.min 100
         (layoutScore (updateRendering noLineHeightDocument initialEngine) + 5).
Proof.
  apply (empty_lineHeight_input noLineHeightDocument initialEngine).
  reflexivity.
Defined.

(** ** The wrapped text of the image export *)

Section Wrapping.

Variable measureText : jsstring -> number.
Variables (x maxWidth lineHeight : number).

Lemma splitChar_go_concat (sep : Z) (s cur : jsstring) :
  concat (map (fun w => w ++ [sep]) (splitChar_go sep cur s))
  = rev cur ++ s ++ [sep].
Proof.
  revert cur. induction s as [|c s IH]; intros cur.
  - cbn. now rewrite app_nil_r.
  - cbn [splitChar_go]. destruct (c =? sep) eqn:E.
    + apply Z.eqb_eq in E. subst c. cbn [map concat]. rewrite IH.
      cbn [rev app]. now rewrite <- app_assoc.
    + rewrite IH. cbn [rev]. now rewrite <- app_assoc.
Qed.

Lemma wrapLoop_concat (first : bool) (words : list jsstring)
  (line : jsstring) (y : number) :
  concat (map fill_text (wrapLoop measureText x maxWidth lineHeight
                           first words line y))
  = line ++ concat (map (fun w => w ++ lit " ") words).
Proof.
  revert first line y. induction words as [|w words IH]; intros first line y.
  - cbn. now rewrite app_nil_r.
  - cbn [wrapLoop]. destruct (ltb maxWidth _ && negb first).
    + cbn [map concat fill_text]. rewrite IH. reflexivity.
    + rewrite IH. cbn [map concat]. now rewrite <- !app_assoc.
Qed.

Lemma wrapLoop_x (first : bool) (words : list jsstring) (line : jsstring)
  (y : number) :
  List.Forall (fun c => fill_x c = x)
    (wrapLoop measureText x maxWidth lineHeight first words line y).
Proof.
  revert first line y. induction words as [|w words IH]; intros first line y.
  - cbn. repeat constructor.
  - cbn [wrapLoop]. destruct (ltb maxWidth _ && negb first).
    + constructor; [reflexivity|apply IH].
    + apply IH.
Qed.

Lemma wrapLoop_y (first : bool) (words : list jsstring) (line : jsstring)
  (y : number) :
  map fill_y (wrapLoop measureText x maxWidth lineHeight first words line y)
  = baselines lineHeight y
      (length (wrapLoop measureText x maxWidth lineHeight first words line y)).
Proof.
  revert first line y. induction words as [|w words IH]; intros first line y.
  - reflexivity.
  - cbn [wrapLoop]. destruct (ltb maxWidth _ && negb first).
    + cbn [map length baselines fill_y]. now rewrite IH.
    + apply IH.
Qed.

Lemma wrapLoop_length (first : bool) (words : list jsstring)
  (line : jsstring) (y : number) :
  (1 <= length (wrapLoop measureText x maxWidth lineHeight first words line y)
   <= (if first then 1 else 1 + length words))%nat
  \/ (first = true /\ words <> [] /\
      (1 <= length (wrapLoop measureText x maxWidth lineHeight
                      first words line y)
       <= length words)%nat).
Proof.
  revert first line y. induction words as [|w words IH]; intros first line y.
  - left. cbn. destruct first; lia.
  - cbn [wrapLoop]. destruct first.
    + right. split; [reflexivity|]. split; [discriminate|].
      rewrite andb_false_r.
      destruct (IH false (line ++ w ++ lit " ") y) as [H|(H & _)];
        [cbn [length]; lia | discriminate H].
    + left. rewrite andb_true_r. destruct (ltb maxWidth _).
      * destruct (IH false (w ++ lit " ") (numAdd y lineHeight))
          as [H|(H & _)]; [cbn [length]; lia | discriminate H].
      * destruct (IH false (line ++ w ++ lit " ") y) as [H|(H & _)];
          [cbn [length]; lia | discriminate H].
Qed.

Lemma wrapLoop_fits (all : list jsstring) (first : bool)
  (words : list jsstring) (line : jsstring) (y : number) :
  incl words all ->
  (first = true \/ oneWordOrFits measureText maxWidth all line) ->
  (first = true -> line = [] /\ words <> []) ->
  List.Forall
    (fun c => oneWordOrFits measureText maxWidth all (fill_text c))
    (wrapLoop measureText x maxWidth lineHeight first words line y).
Proof.
  revert first line y. induction words as [|w words IH];
    intros first line y Hincl Hline Hfirst.
  - cbn. constructor; [|constructor]. cbn [fill_text].
    destruct Hline as [->|H]; [|exact H].
    destruct (Hfirst eq_refl) as [_ Hne]. now contradiction Hne.
  - assert (Hw : In w all) by (apply Hincl; now left).
    assert (Hincl' : incl words all)
      by (intros u Hu; apply Hincl; now right).
    cbn [wrapLoop]. destruct first.
    + rewrite andb_false_r. destruct (Hfirst eq_refl) as [-> _].
      apply IH; [exact Hincl'| |discriminate].
      right. left. exists w. split; [exact Hw|reflexivity].
    + rewrite andb_true_r.
      destruct Hline as [Hf|Hline]; [discriminate Hf|].
      destruct (ltb maxWidth (measureText (line ++ w ++ lit " "))) eqn:E.
      * constructor; [exact Hline|].
        apply IH; [exact Hincl'| |discriminate].
        right. left. exists w. split; [exact Hw|reflexivity].
      * apply IH; [exact Hincl'| |discriminate].
        right. right. exact E.
Qed.

Lemma wrapLoop_head (words : list jsstring) (line : jsstring) (y : number) :
  exists tail cs,
    wrapLoop measureText x maxWidth lineHeight false words line y
    = {| fill_text := line ++ tail; fill_x := x; fill_y := y |} :: cs.
Proof.
  revert line. induction words as [|w words IH]; intros line.
  - exists [], []. cbn. now rewrite app_nil_r.
  - cbn [wrapLoop]. rewrite andb_true_r. destruct (ltb maxWidth _).
    + exists []. eexists. now rewrite app_nil_r.
    + destruct (IH (line ++ w ++ lit " ")) as (tail & cs & ->).
      exists (w ++ lit " " ++ tail), cs. now rewrite <- !app_assoc.
Qed.

Lemma wrapLoop_breaks (first : bool) (words : list jsstring)
  (line : jsstring) (y : number) :
  breaksNeeded measureText maxWidth
    (wrapLoop measureText x maxWidth lineHeight first words line y).
Proof.
  revert first line y. induction words as [|w words IH]; intros first line y.
  - exact I.
  - cbn [wrapLoop]. destruct (ltb maxWidth _ && negb first) eqn:E.
    + apply andb_true_iff in E as [E _].
      pose proof (IH false (w ++ lit " ") (numAdd y lineHeight)) as Hrest.
      destruct (wrapLoop_head words (w ++ lit " ") (numAdd y lineHeight))
        as (tail & cs & Hh).
      rewrite Hh in *. cbn [breaksNeeded fill_text]. split; [|exact Hrest].
      exists w, tail. split; [now rewrite <- app_assoc|exact E].
    + apply IH.
Qed.

Lemma splitChar_nonempty (sep : Z) (s : jsstring) : splitChar sep s <> [].
Proof.
  unfold splitChar. pose proof (splitChar_go_length sep s []) as H.
  destruct (splitChar_go sep [] s); [discriminate H|discriminate].
Qed.

End Wrapping.

(** X12: [drawWrappedText] loses and adds no text: the lines it draws,
    put together in order, are the text followed by one space, whatever
    the widths measured are. *)
Theorem drawWrappedText_text (measureText : jsstring -> number)
  (x maxWidth lineHeight : number) (text : jsstring) (y : number) :
  concat (map fill_text
            (drawWrappedText measureText x maxWidth lineHeight text y))
  = text ++ lit " ".
Proof.
  unfold drawWrappedText. rewrite wrapLoop_concat. cbn [app].
  unfold splitChar. change (lit " ") with [32].
  now rewrite splitChar_go_concat.
Qed.

(** X13: every line is drawn at the horizontal position given; the
    first at the vertical position given and each further one a line
    height below the one before; and there is at least one line and at
    most one per word. *)
Theorem drawWrappedText_positions (measureText : jsstring -> number)
  (x maxWidth lineHeight : number) (text : jsstring) (y : number) :
  let calls := drawWrappedText measureText x maxWidth lineHeight text y in
  List.Forall (fun c => fill_x c = x) calls
  /\ map fill_y calls = baselines lineHeight y (length calls)
  /\ (1 <= length calls <= length (splitChar 32 text))%nat.
Proof.
  cbv zeta. unfold drawWrappedText. split; [apply wrapLoop_x|].
  split; [apply wrapLoop_y|].
  destruct (wrapLoop_length measureText x maxWidth lineHeight true
              (splitChar 32 text) [] y) as [H|(_ & _ & H)]; [|exact H].
  pose proof (splitChar_nonempty 32 text) as Hne.
  destruct (splitChar 32 text); [congruence|]. cbn [length] in *. lia.
Qed.

(** X14: every line drawn is either one word with its space or not
    wider than the maximal width, and a line is broken only where the
    next word did not fit: each line but the last is followed by a line
    whose first word, put behind it, measured wider than the maximal
    width. *)
Theorem drawWrappedText_fits (measureText : jsstring -> number)
  (x maxWidth lineHeight : number) (text : jsstring) (y : number) :
  let calls := drawWrappedText measureText x maxWidth lineHeight text y in
  List.Forall
    (fun c => oneWordOrFits measureText maxWidth (splitChar 32 text)
                (fill_text c))
    calls
  /\ breaksNeeded measureText maxWidth calls.
Proof.
  cbv zeta. unfold drawWrappedText. split; [|apply wrapLoop_breaks].
  apply wrapLoop_fits.
  - intros w Hw. exact Hw.
  - now left.
  - intros _. split; [reflexivity|apply splitChar_nonempty].
Qed.

(** ** The render time on display *)

Section NotANumber.

Lemma endsWith_s_tail (c : Z) (r : jsstring) :
  endsWith_s (c :: r) -> c <> 115 -> endsWith_s r.
Proof.
  intros (p & H) Hc. destruct p as [|a p].
  - cbn in H. congruence.
  - cbn in H. injection H as _ ->. now exists p.
Qed.

Lemma endsWith_s_cons (s : jsstring) :
  endsWith_s s -> exists c r, s = c :: r.
Proof. intros (p & ->). destruct p; cbn; eauto. Qed.

Lemma trimStart_endsWith_s (s : jsstring) :
  endsWith_s s -> endsWith_s (trimStart s).
Proof.
  induction s as [|c s IH]; intros H; [exact H|].
  cbn [trimStart]. destruct (isWhiteSpace c) eqn:E; [|exact H].
  apply IH. apply (endsWith_s_tail c); [exact H|].
  intros ->. discriminate E.
Qed.

Lemma trimEnd_endsWith_s (s : jsstring) : endsWith_s s -> trimEnd s = s.
Proof.
  intros (p & ->). unfold trimEnd. rewrite rev_app_distr. cbn [rev app trimStart].
  change (isWhiteSpace 115) with false. cbv iota.
  change (115 :: rev p) with ([115] ++ rev p).
  rewrite rev_app_distr, rev_involutive. reflexivity.
Qed.

Lemma trim_endsWith_s (s : jsstring) : endsWith_s s -> endsWith_s (trim s).
Proof.
  intros H. unfold trim. apply trimStart_endsWith_s in H.
  now rewrite (trimEnd_endsWith_s _ H).
Qed.

Lemma readDigits_endsWith_s (s : jsstring) :
  endsWith_s s -> endsWith_s (snd (readDigits s)).
Proof.
  induction s as [|c s IH]; intros H; [exact H|].
  cbn [readDigits]. destruct (isDigit c) eqn:E; [|exact H].
  assert (Hs : endsWith_s s).
  { apply (endsWith_s_tail c); [exact H|]. intros ->. discriminate E. }
  specialize (IH Hs). destruct (readDigits s) as [ds rest]. exact IH.
Qed.

Lemma readRadixDigits_endsWith_s (radix : Z) (s : jsstring) :
  endsWith_s s -> endsWith_s (snd (readRadixDigits radix s)).
Proof.
  induction s as [|c s IH]; intros H; [exact H|].
  cbn [readRadixDigits]. destruct (hexValue c) as [v|] eqn:E; [|exact H].
  destruct (v <? radix); [|exact H].
  assert (Hs : endsWith_s s).
  { apply (endsWith_s_tail c); [exact H|]. intros ->. discriminate E. }
  specialize (IH Hs). destruct (readRadixDigits radix s) as [ds rest]. exact IH.
Qed.

Lemma readSign_endsWith_s (s : jsstring) :
  endsWith_s s -> endsWith_s (snd (readSign s)).
Proof.
  intros H. destruct s as [|c r]; [exact H|]. cbn [readSign].
  destruct (c =? 45) eqn:E1.
  - apply Z.eqb_eq in E1. apply (endsWith_s_tail c); [exact H|lia].
  - destruct (c =? 43) eqn:E2; [|exact H].
    apply Z.eqb_eq in E2. apply (endsWith_s_tail c); [exact H|lia].
Qed.

Lemma strUnsignedDecimal_endsWith_s (sign : bool) (s : jsstring) :
  endsWith_s s -> strUnsignedDecimal sign s = NaN.
Proof.
  intros H. unfold strUnsignedDecimal. case_bool_decide as Hinf.
  { destruct H as (p & Hp). rewrite Hinf in Hp.
    change (lit "Infinity") with (lit "Infinit" ++ [121]) in Hp.
    apply app_inj_tail in Hp as [_ Hp]. discriminate Hp. }
  pose proof (readDigits_endsWith_s s H) as H1.
  destruct (readDigits s) as [ip r1]. cbn [snd] in H1.
  assert (H2 : endsWith_s
                 (snd match r1 with
                      | c :: r => if c =? 46 then readDigits r else ([], r1)
                      | [] => ([], r1)
                      end)).
  { destruct r1 as [|c r]; [exact H1|]. destruct (c =? 46) eqn:E; [|exact H1].
    apply readDigits_endsWith_s. apply (endsWith_s_tail c); [exact H1|].
    apply Z.eqb_eq in E. lia. }
  destruct (match r1 with
            | c :: r => if c =? 46 then readDigits r else ([], r1)
            | [] => ([], r1)
            end) as [fp r2]. cbn [snd] in H2.
  destruct (ip ++ fp) as [|x ds]; [reflexivity|].
  destruct (endsWith_s_cons r2 H2) as (c & r3 & ->).
  destruct ((c =? 101) || (c =? 69)) eqn:E; [|reflexivity].
  assert (H3 : endsWith_s r3).
  { apply (endsWith_s_tail c); [exact H2|]. intros ->. discriminate E. }
  apply readSign_endsWith_s in H3. destruct (readSign r3) as [neg r4].
  cbn [snd] in H3. apply readDigits_endsWith_s in H3.
  destruct (readDigits r4) as [es r5]. cbn [snd] in H3.
  destruct (endsWith_s_cons r5 H3) as (c5 & r6 & ->).
  destruct es; reflexivity.
Qed.

Lemma StringToNumber_endsWith_s (str : jsstring) :
  endsWith_s str -> StringToNumber str = NaN.
Proof.
  intros H. apply trim_endsWith_s in H. unfold StringToNumber.
  destruct (endsWith_s_cons _ H) as (c & r & E). rewrite E in *.
  destruct (radixPrefix (c :: r)) as [radix|] eqn:Er.
  - assert (Hr : endsWith_s (skipn 2 (c :: r))).
    { unfold radixPrefix in Er. destruct r as [|c2 r]; [discriminate Er|].
      cbn [skipn]. destruct (c =? 48) eqn:E0; [|discriminate Er].
      apply Z.eqb_eq in E0.
      apply (endsWith_s_tail c2).
      - apply (endsWith_s_tail c); [exact H|lia].
      - intros ->. discriminate Er. }
    apply (readRadixDigits_endsWith_s radix) in Hr.
    destruct (readRadixDigits radix (skipn 2 (c :: r))) as [ds rest].
    cbn [snd] in Hr. destruct (endsWith_s_cons rest Hr) as (c5 & r6 & ->).
    destruct ds; reflexivity.
  - pose proof (readSign_endsWith_s _ H) as Hs.
    destruct (readSign (c :: r)) as [sign s]. cbn [snd] in Hs.
    now apply strUnsignedDecimal_endsWith_s.
Qed.

Lemma numSub_NaN_l (y : number) : numSub NaN y = NaN.
Proof. destruct y; reflexivity. Qed.

Lemma mul_NaN_l (y : number) : mul NaN y = NaN.
Proof. destruct y; reflexivity. Qed.

Lemma numAdd_NaN_r (a : number) : numAdd a NaN = NaN.
Proof. destruct a; reflexivity. Qed.

End NotANumber.

(** X15: the render time never shows.  [updatePerformanceMetrics]
    hands [updateMetricDisplay] the string made of the rounded time and
    [ms]; a string always differs from the Number read off the element,
    so an animation starts for every element text and every pair of
    clock readings; the string is no numeric literal, so its difference
    to the start value is [NaN], and every frame of the animation, at
    whatever time and whatever [Math.pow] returns, writes [NaN] into the
    element, from which the next call reads [NaN] again. *)
Theorem renderTime_shows_NaN (Math_pow : number -> number -> number)
  (renderStartTime now started currentTime : number)
  (textContent : jsstring) :
  exists a,
    updatePerformanceMetrics renderStartTime now textContent started = Some a
    /\ ToNumber (anim_end a) = NaN
    /\ fst (updateValue Math_pow a currentTime) = lit "NaN"
    /\ parseInt (fst (updateValue Math_pow a currentTime)) = NaN.
Proof.
  unfold updatePerformanceMetrics, updateMetricDisplay.
  cbn [strictNotEqual]. eexists. split; [reflexivity|].
  cbn [anim_end anim_start anim_duration anim_startTime ToNumber].
  assert (HN : StringToNumber
                 (numToString (Math_round (numSub now renderStartTime))
                  ++ lit "ms") = NaN).
  { apply StringToNumber_endsWith_s.
    exists (numToString (Math_round (numSub now renderStartTime)) ++ lit "m").
    now rewrite <- app_assoc. }
  split; [exact HN|].
  assert (HT : fst (updateValue Math_pow
                 {| anim_start := orElse (parseInt textContent) (ofZ 0);
                    anim_end :=
                      PString
                        (numToString (Math_round (numSub now renderStartTime))
                         ++ lit "ms");
                    anim_duration := ofZ 300;
                    anim_startTime := started |} currentTime) = lit "NaN").
  { unfold updateValue.
    cbn [fst anim_end anim_start anim_duration anim_startTime ToNumber].
    rewrite HN, numSub_NaN_l, mul_NaN_l, numAdd_NaN_r. reflexivity. }
  split; [exact HT|]. rewrite HT. vm_compute. reflexivity.
Qed.

(** ** Fullscreen and the mobile controls *)

Section ClassLists.

Lemma In_Set_add (s : list jsstring) (x : jsstring) : In x (Set_add s x).
Proof. apply list_elem_of_In. apply Set_add_present. Qed.

Lemma not_In_Set_delete (s : list jsstring) (x : jsstring) :
  ~ In x (Set_delete s x).
Proof. intros H. apply list_elem_of_In in H. now apply Set_delete_absent in H. Qed.

Lemma Set_add_In (s : list jsstring) (x : jsstring) :
  In x s -> Set_add s x = s.
Proof.
  intros H. unfold Set_add, Set_has.
  rewrite bool_decide_eq_true_2; [reflexivity|]. now apply list_elem_of_In.
Qed.

End ClassLists.

(** X16: after [toggleFullscreen] the flag is flipped, the preview
    area carries the class [fullscreen-mode] exactly when the flag is
    set, and the label and the text of the button name the way out or
    in accordingly, whatever the class list held before; Escape then
    leaves fullscreen with the class removed, Escape never enters
    fullscreen, and F11 is the toggle. *)
Theorem toggleFullscreen_consistent (c : Chrome) :
  let c' := toggleFullscreen c in
  isFullscreen c' = negb (isFullscreen c)
  /\ (isFullscreen c' = true <-> fullscreenClass c')
  /\ fullscreenBtn_ariaLabel c'
     = Some (lit (if isFullscreen c' then "Exit fullscreen"
                  else "Enter fullscreen"))
  /\ fullscreenBtn_textContent c'
     = (if isFullscreen c' then [9950] else [9974])
  /\ isFullscreen (onKeydown (lit "Escape") c') = false
  /\ ~ fullscreenClass (onKeydown (lit "Escape") c')
  /\ isFullscreen (onKeydown (lit "Escape") c) = false
  /\ onKeydown (lit "F11") c = c'.
Proof.
  cbv zeta. unfold onKeydown, fullscreenClass.
  rewrite (bool_decide_eq_true_2 (lit "Escape" = lit "Escape")) by reflexivity.
  rewrite (bool_decide_eq_false_2 (lit "Escape" = lit "F11")) by discriminate.
  rewrite (bool_decide_eq_false_2 (lit "F11" = lit "Escape")) by discriminate.
  rewrite (bool_decide_eq_true_2 (lit "F11" = lit "F11")) by reflexivity.
  cbn [andb]. unfold toggleFullscreen.
  destruct (isFullscreen c) eqn:E;
    cbn [negb isFullscreen renderingArea_classList fullscreenBtn_ariaLabel
         fullscreenBtn_textContent]; rewrite ?E;
    cbn [negb isFullscreen renderingArea_classList fullscreenBtn_ariaLabel
         fullscreenBtn_textContent];
    repeat split; try reflexivity; try discriminate;
    try (intros _; apply In_Set_add);
    try (intros H; now apply not_In_Set_delete in H);
    try apply not_In_Set_delete.
Qed.

(** X17: in a window wider than the tablet breakpoint
    [updateMobileControlsState] shows the controls without setting the
    flag [isMobileControlsOpen]; so the first click on the toggle button
    only sets the flag (the class list of the controls stays as it was,
    the controls stay shown, the button reports expanded), and it takes
    a second click to hide them, with [aria-hidden] true and
    [aria-expanded] false. *)
Theorem desktop_first_toggle (innerWidth : Z) (c : Chrome) :
  isMobileControlsOpen c = false ->
  breakpoints_tablet < innerWidth ->
  let c1 := updateMobileControlsState innerWidth c in
  let c2 := toggleMobileControls c1 in
  let c3 := toggleMobileControls c2 in
  controlsShown c1
  /\ controlsWrapper_ariaHidden c1 = Some (lit "false")
  /\ isMobileControlsOpen c2 = true
  /\ controlsWrapper_classList c2 = controlsWrapper_classList c1
  /\ controlsWrapper_ariaHidden c2 = Some (lit "false")
  /\ toggleBtn_ariaExpanded c2 = Some (lit "true")
  /\ isMobileControlsOpen c3 = false
  /\ ~ controlsShown c3
  /\ controlsWrapper_ariaHidden c3 = Some (lit "true")
  /\ toggleBtn_ariaExpanded c3 = Some (lit "false").
Proof.
  intros Hopen Hw. cbv zeta. unfold updateMobileControlsState.
  replace (innerWidth <=? breakpoints_tablet) with false
    by (symmetry; apply Z.leb_gt; exact Hw).
  cbn [negb]. unfold toggleMobileControls, controlsShown.
  cbn [isMobileControlsOpen controlsWrapper_classList
       controlsWrapper_ariaHidden toggleBtn_ariaExpanded negb].
  rewrite Hopen.
  cbn [isMobileControlsOpen controlsWrapper_classList
       controlsWrapper_ariaHidden toggleBtn_ariaExpanded negb].
  repeat split; try reflexivity.
  - apply In_Set_add.
  - apply Set_add_In. apply In_Set_add.
  - apply not_In_Set_delete.
Qed.

Lemma desktop_first_toggle_witness :
  controlsShown (updateMobileControlsState 1280 initialChrome)
  /\ controlsWrapper_ariaHidden (updateMobileControlsState 1280 initialChrome)
     = Some (lit "false")
  /\ isMobileControlsOpen
       (toggleMobileControls (updateMobileControlsState 1280 initialChrome))
     = true
  /\ controlsWrapper_classList
       (toggleMobileControls (updateMobileControlsState 1280 initialChrome))
     = controlsWrapper_classList (updateMobileControlsState 1280 initialChrome)
  /\ controlsWrapper_ariaHidden
       (toggleMobileControls (updateMobileControlsState 1280 initialChrome))
     = Some (lit "false")
  /\ toggleBtn_ariaExpanded
       (toggleMobileControls (updateMobileControlsState 1280 initialChrome))
     = Some (lit "true")
  /\ isMobileControlsOpen
       (toggleMobileControls
          (toggleMobileControls (updateMobileControlsState 1280 initialChrome)))
     = false
  /\ ~ controlsShown
        (toggleMobileControls
           (toggleMobileControls
              (updateMobileControlsState 1280 initialChrome)))
  /\ controlsWrapper_ariaHidden
       (toggleMobileControls
          (toggleMobileControls (updateMobileControlsState 1280 initialChrome)))
     = Some (lit "true")
  /\ toggleBtn_ariaExpanded
       (toggleMobileControls
          (toggleMobileControls (updateMobileControlsState 1280 initialChrome)))
     = Some (lit "false").
Proof.
  apply (desktop_first_toggle 1280 initialChrome).
  - reflexivity.
  - reflexivity.
Defined.

(** ** What the score reads *)

Lemma updateRendering_layoutScore (d : Document) (e : Engine) :
  layoutScore (updateRendering d e)
  = layoutScoreSpec (jslength (renderedTextOf d))
      (newlineCount (renderedTextOf d))
      (parseFloat (lineHeight_value d)) (parseFloat (letterSpacing_value d))
      (activeFeatures e) (renderedTextOf d).
Proof.
  change (layoutScore (updateRendering d e))
    with (layoutScore
            (calculateLayoutScore d (renderedTextOf d)
               (set_style e (renderedText_style (updateRendering d e))))).
  now rewrite layoutScore_eq.
Qed.

(** X18: the layout score of a rendering reads the text, the line-height
    input, the letter-spacing input and whether ligatures are active, and
    nothing else: two pages that agree on the three and two engines that
    agree on the ligatures feature get the same score, whatever the font,
    its size and weight, the word spacing, the alignment, the other
    features, hyphenation and the layout optimisation are. *)
Theorem layoutScore_reads (d d' : Document) (e e' : Engine) :
  renderedTextOf d = renderedTextOf d' ->
  lineHeight_value d = lineHeight_value d' ->
  letterSpacing_value d = letterSpacing_value d' ->
  Set_has (activeFeatures e) (lit "ligatures")
  = Set_has (activeFeatures e') (lit "ligatures") ->
  layoutScore (updateRendering d e) = layoutScore (updateRendering d' e').
Proof.
  intros Ht Hlh Hls Hlig. rewrite !updateRendering_layoutScore.
  rewrite <- Ht, <- Hlh, <- Hls. unfold layoutScoreSpec. cbv zeta.
  unfold Set_has in Hlig. rewrite Hlig. reflexivity.
Qed.

Lemma layoutScore_reads_witness :
  layoutScore (updateRendering sampleDocument initialEngine)
  = layoutScore
      (updateRendering zeroSizeDocument
         (onOptimizeLayoutChange sampleDocument true
            (setActiveAlignment sampleDocument (lit "center")
               (onFeatureChange sampleDocument (lit "kerning") false
                  initialEngine)))).
Proof.
  apply layoutScore_reads; reflexivity.
Defined.
